(** * media-service: the upload/download bridges, the path policy and the
    URL derivation, embedded from the Go sources

    Sources embedded here:
    - [internal/handler/media_handler.go]  (package handler, [MediaHandler])
    - [internal/service/media_service.go]  (package service, [MediaService])
    - the MinIO adapter of package storage ([MinioStorage]) and the
      [Storage] interface.

    Go strings are byte sequences and are modelled by [string] (whose
    characters are 8-bit [ascii]); [[]byte] values are [list byte], with
    Go's [nil] slice kept apart from the empty slice where the code tests
    for it.  [int64] is [Z] with the wrap-around written out.  Logging
    ([h.log], [m.log]) has no effect on any result and is left out, and so
    are the [context.Context] arguments: cancellation is not modelled.

    What the service calls but does not define (the Go library, the uuid
    package, the MinIO client, the gRPC streams) is modelled by what the
    service relies on:
    - the MinIO client reads the reader of a [PutObject] to its end, and
      its object handle fills the buffer of a [Read] whenever enough bytes
      remain (it reads through [io.ReadFull]);
    - when and whether the object store fails is decided by oracles kept in
      the state of the world, next to the clock and the source of
      identifiers. *)

From Stdlib Require Import ZArith Strings.Ascii Strings.Byte.
From stdpp Require Import base tactics option list vector gmap strings.
From Equations Require Import Equations.

(** ** Go strings *)

Module GoString.

Fixpoint of_list (l : list ascii) : string :=
  match l with
  | [] => EmptyString
  | c :: r => String c (of_list r)
  end.

Fixpoint to_list (s : string) : list ascii :=
  match s with
  | EmptyString => []
  | String c r => c :: to_list r
  end.

End GoString.

(** ** [path/filepath.Ext] (Unix build: the only separator is ['/'])

    <<
    for i := len(path) - 1; i >= 0 && !os.IsPathSeparator(path[i]); i-- {
        if path[i] == '.' { return path[i:] }
    }
    return ""
    >>
    The loop walks the bytes from the last to the first; [Ext_loop] gets the
    bytes [path[:i+1]] reversed and carries [path[i+1:]]. *)

Module filepath.

Definition IsPathSeparator (c : ascii) : bool := Ascii.eqb c "/".

Fixpoint Ext_loop (rpath : list ascii) (tail : list ascii) : list ascii :=
  match rpath with
  | [] => []
  | c :: before =>
      if IsPathSeparator c then []
      else if Ascii.eqb c "." then c :: tail
      else Ext_loop before (c :: tail)
  end.

Definition Ext (path : string) : string :=
  GoString.of_list (Ext_loop (rev (GoString.to_list path)) []).

End filepath.

(** The extension in the words of the specification: the substring from the
    last ['.'] to the end, the dot included, empty if there is no dot. *)
Fixpoint from_last_dot (f : string) : string :=
  match f with
  | EmptyString => ""
  | String c r =>
      match from_last_dot r with
      | EmptyString => if Ascii.eqb c "." then f else ""
      | e => e
      end
  end.

(** The final element of a slash-separated path: what follows the last
    ['/'], the whole string if there is none. *)
Fixpoint last_element (f : string) : string :=
  match f with
  | EmptyString => ""
  | String c r =>
      if existsb filepath.IsPathSeparator (GoString.to_list r) then last_element r
      else if filepath.IsPathSeparator c then r
      else f
  end.

(** ** [int64] *)

Module int64.
(** Conversion to [int64] and every [int64] addition wrap around. *)
Definition wrap (z : Z) : Z := (z + 2 ^ 63) `mod` 2 ^ 64 - 2 ^ 63.
Definition add (a b : Z) : Z := wrap (a + b).
(** [int64(len(s))] *)
Definition of_len {A} (s : list A) : Z := wrap (Z.of_nat (length s)).
End int64.

(** ** Package [time]: the civil reading of an instant and the two layouts
    the service formats it with. *)

Module time.

Record Time := mkTime {
  Year : nat; Month : nat; Day : nat;
  Hour : nat; Minute : nat; Second : nat;
  ZoneOffset : Z   (* seconds east of UTC *)
}.

Definition digit (d : nat) : ascii := ascii_of_nat (48 + d).

Fixpoint utoa_loop (fuel u : nat) (acc : list ascii) : list ascii :=
  match fuel with
  | O => acc
  | S fuel' =>
      let acc' := digit (u `mod` 10) :: acc in
      if u <? 10 then acc' else utoa_loop fuel' (u `div` 10) acc'
  end.

(** [appendInt(b, x, width)] for [x >= 0]: decimal, zero-padded on the
    left up to [width], never truncated. *)
Definition appendInt (x width : nat) : string :=
  let ds := utoa_loop (S x) x [] in
  GoString.of_list (replicate (width - length ds) "0"%char ++ ds).

(** [t.Format("2006/01/02")] *)
Definition Format_date (t : Time) : string :=
  appendInt (Year t) 4 +:+ "/" +:+ appendInt (Month t) 2 +:+ "/" +:+ appendInt (Day t) 2.

(** The zone suffix of layout element [Z07:00]. *)
Definition Format_zone (offset : Z) : string :=
  if (offset =? 0)%Z then "Z"
  else
    let zone := (offset `quot` 60)%Z in
    let sign := if (zone <? 0)%Z then "-" else "+" in
    let zone := Z.to_nat (Z.abs zone) in
    sign +:+ appendInt (zone `div` 60) 2 +:+ ":" +:+ appendInt (zone `mod` 60) 2.

(** [t.Format(time.RFC3339)], layout [2006-01-02T15:04:05Z07:00] *)
Definition Format_RFC3339 (t : Time) : string :=
  appendInt (Year t) 4 +:+ "-" +:+ appendInt (Month t) 2 +:+ "-" +:+ appendInt (Day t) 2
  +:+ "T" +:+ appendInt (Hour t) 2 +:+ ":" +:+ appendInt (Minute t) 2
  +:+ ":" +:+ appendInt (Second t) 2 +:+ Format_zone (ZoneOffset t).

(** A civil date as the clock delivers it. *)
Definition civil (t : Time) : Prop :=
  Year t < 10 ^ 4 /\ 1 <= Month t <= 12 /\ 1 <= Day t <= 31.

Definition is_digit (c : ascii) : bool :=
  (48 <=? nat_of_ascii c) && (nat_of_ascii c <=? 57).

(** Recogniser of the shape [YYYY/MM/DD]. *)
Definition is_YYYY_MM_DD (s : string) : bool :=
  match GoString.to_list s with
  | [y1; y2; y3; y4; s1; m1; m2; s2; d1; d2] =>
      forallb is_digit [y1; y2; y3; y4; m1; m2; d1; d2]
      && Ascii.eqb s1 "/" && Ascii.eqb s2 "/"
  | _ => false
  end.

End time.

(** ** Package [github.com/google/uuid]: a [UUID] is [[16]byte]; [String]
    gives the canonical form [xxxxxxxx-xxxx-xxxx-xxxx-xxxxxxxxxxxx]. *)

Module uuid.

Definition UUID : Type := vec byte 16.

Definition hextable : string := "0123456789abcdef".

Definition hex_digit (n : N) : ascii :=
  default "0"%char (String.get (N.to_nat n) hextable).

(** [encoding/hex.Encode]: two digits per byte, high nibble first. *)
Definition hex_Encode (src : list byte) : list ascii :=
  flat_map (fun v => [hex_digit (N.shiftr (Byte.to_N v) 4);
                      hex_digit (N.land (Byte.to_N v) 15)]) src.

(** The Go slice expression [s[lo:hi]]. *)
Definition slice {A} (lo hi : nat) (s : list A) : list A := take (hi - lo) (drop lo s).

Definition encodeHex (u : UUID) : list ascii :=
  let b := vec_to_list u in
  hex_Encode (slice 0 4 b) ++ "-"%char ::
  hex_Encode (slice 4 6 b) ++ "-"%char ::
  hex_Encode (slice 6 8 b) ++ "-"%char ::
  hex_Encode (slice 8 10 b) ++ "-"%char ::
  hex_Encode (slice 10 16 b).

Definition String (u : UUID) : string := GoString.of_list (encodeHex u).

Definition is_hex (c : ascii) : bool :=
  existsb (Ascii.eqb c) (GoString.to_list hextable).

(** Recogniser of the canonical textual form: 36 characters, lower-case
    hexadecimal digits in groups of 8-4-4-4-12 separated by hyphens. *)
Definition is_canonical (s : string) : bool :=
  let l := GoString.to_list s in
  (length l =? 36)
  && forallb (fun '(i, c) =>
                if bool_decide (i ∈ [8; 13; 18; 23]) then Ascii.eqb c "-" else is_hex c)
             (imap (fun i c => (i, c)) l).

End uuid.

(** ** Go [error] values, [io.Reader]

    [io.EOF] is tested by identity ([err == io.EOF]); every other error is
    known by its message. *)

Inductive error :=
| EOF
| Err (msg : string).

Definition Error (e : error) : string :=
  match e with
  | EOF => "EOF"
  | Err msg => msg
  end.

(** [fmt.Errorf(prefix + "%w", err)] *)
Definition Errorf (prefix : string) (e : error) : error := Err (prefix +:+ Error e).

(** A Go result pair [(T, error)] of which exactly one half is set. *)
Inductive outcome (E A : Type) :=
| Ok (a : A)
| Fail (e : E).
Arguments Ok {E A} a.
Arguments Fail {E A} e.

(** A [[]byte]: [None] is the [nil] slice. *)
Definition bytes : Type := option (list byte).

Definition slice_data (b : bytes) : list byte := default [] b.

Module io.

(** When a reader reports the end of its data: only on the call after the
    last byte, together with the last bytes, or whenever a call could not
    fill the buffer (the behaviour of [io.ReadFull]-based readers). *)
Inductive EndPolicy := EndLazy | EndEager | EndOnShort.

(** A reader over a finite byte sequence: it yields [rd_data], then the
    error [rd_end] ([EOF] for a clean end), for ever. *)
Record Reader := mkReader {
  rd_data : list byte;
  rd_end : error;
  rd_policy : EndPolicy
}.

(** [n, err := r.Read(p)] with [len(p) = n]: the bytes read, the error and
    the reader afterwards.  A call fills [p] when enough bytes remain: the
    readers of this service ([bytes.Reader], the handle of a MinIO object)
    do not return short before the end of their data. *)
Definition Read (r : Reader) (n : nat) : list byte * option error * Reader :=
  match rd_data r with
  | [] => ([], Some (rd_end r), r)
  | _ =>
      let got := take n (rd_data r) in
      let rest := drop n (rd_data r) in
      let at_end :=
        match rd_policy r with
        | EndLazy => false
        | EndEager => bool_decide (rest = [])
        | EndOnShort => bool_decide (length got < n)
        end in
      (got, if at_end then Some (rd_end r) else None,
       mkReader rest (rd_end r) (rd_policy r))
  end.

(** [io.ReadAll(r)]: everything up to the end; a clean end is no error. *)
Definition ReadAll (r : Reader) : list byte * option error :=
  (rd_data r, match rd_end r with EOF => None | e => Some e end).

(** [bytes.NewReader(b)] *)
Definition NewReader (b : bytes) : Reader := mkReader (slice_data b) EOF EndLazy.

(** [io.Pipe]: the write end as the receive loop sees it.  [pw_data] is
    what has been written so far, [pw_closed] the error the pipe was closed
    with ([EOF] after [Close]), [pw_rerr] the error set if the read end
    was closed by its owner. *)
Record PipeWriter := mkPipe {
  pw_data : list byte;
  pw_closed : option error;
  pw_rerr : option error
}.

Definition Pipe : PipeWriter := mkPipe [] None None.

Definition ErrClosedPipe : error := Err "io: read/write on closed pipe".

(** [n, err := w.Write(b)].  A write waits until the read end has taken
    its bytes; the waiting is not modelled, the consumer being the MinIO
    client, which reads to the end.  A write fails once the pipe is closed
    on either side; the MinIO client never closes the read end. *)
Definition Write (w : PipeWriter) (b : list byte) : nat * option error * PipeWriter :=
  match pw_closed w, pw_rerr w with
  | Some _, _ => (0, Some ErrClosedPipe, w)
  | None, Some e => (0, Some e, w)
  | None, None => (length b, None, mkPipe (pw_data w ++ b) None None)
  end.

(** [w.CloseWithError(err)]; [w.Close()] is [CloseWithError EOF].  The
    first close wins. *)
Definition CloseWithError (w : PipeWriter) (e : error) : PipeWriter :=
  match pw_closed w with
  | Some _ => w
  | None => mkPipe (pw_data w) (Some e) (pw_rerr w)
  end.

Definition Close (w : PipeWriter) : PipeWriter := CloseWithError w EOF.

(** What the read end yields in all.  The reads of a pipe come to an end
    only when the write end is closed: then they have yielded the bytes
    written, in order, and yield the closing error.  While the write end
    is open a read that finds no bytes waits, and a consumer that reads to
    the end never returns: there is no reader to speak of. *)
Definition pipe_reader (w : PipeWriter) : option Reader :=
  match pw_closed w with
  | Some e => Some (mkReader (pw_data w) e EndLazy)
  | None => None
  end.

Definition is_closed (w : PipeWriter) : Prop := pw_closed w <> None.

Lemma CloseWithError_closed (w : PipeWriter) (e : error) : is_closed (CloseWithError w e).
Proof. unfold is_closed, CloseWithError. now destruct (pw_closed w) eqn:E; simpl; rewrite ?E. Qed.

Lemma Close_closed (w : PipeWriter) : is_closed (Close w).
Proof. apply CloseWithError_closed. Qed.

(** The same for a pipe known to be closed: the result of a consumer that
    reads to the end can be waited for on such a pipe only. *)
Definition closed_reader (w : PipeWriter) : is_closed w -> Reader :=
  match pw_closed w as c return (c <> None -> Reader) with
  | Some e => fun _ => mkReader (pw_data w) e EndLazy
  | None => fun open => match open eq_refl with end
  end.

End io.

(** ** The world outside the process

    The MinIO server behind [minio.Client], the wall clock and the random
    source of [uuid.NewString] are external; the model keeps them in one
    state that the operations thread.  Failures of the object store are
    decided by oracles, so that the error branches of the adapter and of
    the handlers that depend on it are reachable. *)

(** One [PutObject] request as the server receives it. *)
Record PutCall := mkPutCall {
  put_bucket : string;
  put_key : string;
  put_body : list byte;      (* the bytes read from the reader *)
  put_body_end : error;      (* how the reader ended: [EOF] or a read error *)
  put_size : Z;              (* the size announced by the caller *)
  put_contentType : string
}.

Record Faults := mkFaults {
  put_fault : PutCall -> option string;
  get_fault : string -> string -> option string;
  stat_fault : string -> string -> option string;
  (** [Some (k, msg)]: reading the object breaks with [msg] after [k] bytes *)
  read_fault : string -> string -> option (nat * string);
  remove_fault : string -> string -> option string;
  end_policy : io.EndPolicy
}.

Record World := mkWorld {
  objects : gmap (string * string) (list byte);   (* (bucket, key) to content *)
  faults : Faults;
  uuid_source : nat -> uuid.UUID;
  uuid_drawn : nat;
  clock : nat -> time.Time;
  clock_reads : nat;
  puts : list PutCall                             (* every PutObject so far *)
}.

(** Computations that read and change the world. *)
Definition M (A : Type) : Type := World -> A * World.

Definition ret {A} (a : A) : M A := fun w => (a, w).
Definition bind {A B} (m : M A) (k : A -> M B) : M B :=
  fun w => let '(a, w') := m w in k a w'.

Declare Scope world_scope.
Delimit Scope world_scope with world.
Notation "'do' x <- m ; k" := (bind m (fun x => k))
  (at level 10, x name, m at level 100, k at level 200,
   format "'[v' 'do'  x  <-  m ; '/' k ']'") : world_scope.
Notation "'do' ' p <- m ; k" := (bind m (fun x => let 'p := x in k))
  (at level 10, p pattern, m at level 100, k at level 200,
   format "'[v' 'do'  ' p  <-  m ; '/' k ']'") : world_scope.
Local Open Scope world_scope.

(** [uuid.NewString()] *)
Definition uuid_NewString : M string := fun w =>
  (uuid.String (uuid_source w (uuid_drawn w)),
   mkWorld (objects w) (faults w) (uuid_source w) (S (uuid_drawn w))
           (clock w) (clock_reads w) (puts w)).

(** [time.Now()] *)
Definition time_Now : M time.Time := fun w =>
  (clock w (clock_reads w),
   mkWorld (objects w) (faults w) (uuid_source w) (uuid_drawn w)
           (clock w) (S (clock_reads w)) (puts w)).

(** ** [minio.Client] *)

Module minio.

(** [client.PutObject(ctx, bucket, key, reader, size, opts)]: the client
    reads [reader] to its end.  If the reader ends with an error the
    request is aborted with that error; otherwise the server decides, and
    on success the object holds exactly the bytes read. *)
Definition PutObject (bucket key : string) (reader : io.Reader) (size : Z)
    (contentType : string) : M (option error) := fun w =>
  let call := mkPutCall bucket key (io.rd_data reader) (io.rd_end reader)
                        size contentType in
  let logged objs := mkWorld objs (faults w) (uuid_source w) (uuid_drawn w)
                             (clock w) (clock_reads w) (puts w ++ [call]) in
  match io.rd_end reader with
  | Err msg => (Some (Err msg), logged (objects w))
  | EOF =>
      match put_fault (faults w) call with
      | Some msg => (Some (Err msg), logged (objects w))
      | None => (None, logged (<[(bucket, key) := io.rd_data reader]> (objects w)))
      end
  end.

(** A [*minio.Object]: the handle [GetObject] returns before any request
    is made. *)
Record Object := mkObject { obj_bucket : string; obj_key : string }.

(** [client.GetObject(ctx, bucket, key, opts)] *)
Definition GetObject (bucket key : string) : M (outcome error Object) := fun w =>
  match get_fault (faults w) bucket key with
  | Some msg => (Fail (Err msg), w)
  | None => (Ok (mkObject bucket key), w)
  end.

(** [object.Stat()]: fails when the object does not exist. *)
Definition Stat (o : Object) : M (option error) := fun w =>
  match objects w !! (obj_bucket o, obj_key o) with
  | None => (Some (Err "The specified key does not exist."), w)
  | Some _ =>
      match stat_fault (faults w) (obj_bucket o) (obj_key o) with
      | Some msg => (Some (Err msg), w)
      | None => (None, w)
      end
  end.

(** The object as an [io.ReadCloser]: its content at the time of the
    call, cut short with an error if the transfer breaks. *)
Definition reader_of (o : Object) (w : World) : io.Reader :=
  let content := default [] (objects w !! (obj_bucket o, obj_key o)) in
  match read_fault (faults w) (obj_bucket o) (obj_key o) with
  | Some (k, msg) => io.mkReader (take k content) (Err msg) (end_policy (faults w))
  | None => io.mkReader content EOF (end_policy (faults w))
  end.

(** [client.RemoveObject(ctx, bucket, key, opts)] *)
Definition RemoveObject (bucket key : string) : M (option error) := fun w =>
  match remove_fault (faults w) bucket key with
  | Some msg => (Some (Err msg), w)
  | None =>
      (None, mkWorld (delete (bucket, key) (objects w)) (faults w) (uuid_source w)
                     (uuid_drawn w) (clock w) (clock_reads w) (puts w))
  end.

End minio.

(** ** Package [storage] *)

Module storage.

(** The [Storage] interface: a value of it is the table of its methods. *)
Record Storage := mkStorage {
  Upload : string -> Z -> io.Reader -> string -> M (outcome error string);
  Download : string -> M (outcome error io.Reader);
  Delete : string -> M (option error);
  GetURL : string -> string
}.

(** [MinioStorage]; the [client] field is the connection to the world. *)
Record MinioStorage := mkMinioStorage {
  bucketName : string;
  fileURL : string
}.

Module Minio.

(** [func (m *MinioStorage) Upload(ctx, fileName, fileSize, reader, contentType)] *)
Definition Upload (m : MinioStorage) (fileName : string) (fileSize : Z)
    (reader : io.Reader) (contentType : string) : M (outcome error string) :=
  let ext := filepath.Ext fileName in
  do uniqueID <- uuid_NewString;
  do now <- time_Now;
  let timestamp := time.Format_date now in
  let filePath := timestamp +:+ "/" +:+ uniqueID +:+ ext in
  do err <- minio.PutObject (bucketName m) filePath reader fileSize contentType;
  match err with
  | Some e => ret (Fail (Errorf "failed to upload file: " e))
  | None => ret (Ok filePath)
  end.

(** [func (m *MinioStorage) Download(ctx, filePath)] *)
Definition Download (m : MinioStorage) (filePath : string) : M (outcome error io.Reader) :=
  do got <- minio.GetObject (bucketName m) filePath;
  match got with
  | Fail e => ret (Fail (Errorf "failed to download file: " e))
  | Ok object =>
      do err <- minio.Stat object;
      match err with
      | Some e => ret (Fail (Errorf "file not found: " e))
      | None => fun w => (Ok (minio.reader_of object w), w)
      end
  end.

(** [func (m *MinioStorage) Delete(ctx, filePath)] *)
Definition Delete (m : MinioStorage) (filePath : string) : M (option error) :=
  do err <- minio.RemoveObject (bucketName m) filePath;
  match err with
  | Some e => ret (Some (Errorf "failed to delete file: " e))
  | None => ret None
  end.

(** [func (m *MinioStorage) GetURL(filePath)] *)
Definition GetURL (m : MinioStorage) (filePath : string) : string :=
  if bool_decide (fileURL m = "") then ""
  else fileURL m +:+ "/" +:+ bucketName m +:+ "/" +:+ filePath.

(** [*MinioStorage] as a [Storage]. *)
Definition as_Storage (m : MinioStorage) : Storage :=
  mkStorage (Upload m) (Download m) (Delete m) (GetURL m).

End Minio.

End storage.

(** ** Package [service] *)

Module service.

Record MediaService := NewMediaService { storage : storage.Storage }.

Definition UploadFile (s : MediaService) (fileName : string) (content : bytes)
    (contentType : string) : M (outcome error string) :=
  let reader := io.NewReader content in
  let fileSize := int64.of_len (slice_data content) in
  storage.Upload (storage s) fileName fileSize reader contentType.

Definition UploadStream (s : MediaService) (fileName : string) (fileSize : Z)
    (reader : io.Reader) (contentType : string) : M (outcome error string) :=
  storage.Upload (storage s) fileName fileSize reader contentType.

Definition DownloadFile (s : MediaService) (filePath : string) : M (outcome error io.Reader) :=
  storage.Download (storage s) filePath.

Definition DeleteFile (s : MediaService) (filePath : string) : M (option error) :=
  storage.Delete (storage s) filePath.

Definition GetFileURL (s : MediaService) (filePath : string) : string :=
  storage.GetURL (storage s) filePath.

End service.

(** ** gRPC: status codes and the messages of [media/v1] *)

Module codes.
Inductive Code := OK | InvalidArgument | NotFound | Internal.
End codes.

Record Status := mkStatus { code : codes.Code; message : string }.

(** [status.Error(c, msg)] and [status.Errorf(c, prefix + "%v", err)] *)
Definition status_Error (c : codes.Code) (msg : string) : Status := mkStatus c msg.
Definition status_Errorf (c : codes.Code) (prefix : string) (e : error) : Status :=
  mkStatus c (prefix +:+ Error e).

(** Modelled from the spec: the generated package [proto/media/v1] is not
    among the sources.  Its messages are declared with the fields the
    handler reads and writes, which are the fields of the RPC surface in
    the specification; its getters are those protoc generates for a
    [oneof]. *)
Module mediav1.

Record FileMetadata := mkFileMetadata {
  FileName : string;
  FileSize : Z;
  ContentType : string
}.

Record UploadRequest := mkUploadRequest {
  up_FileName : string;
  up_Content : bytes;
  up_ContentType : string
}.

Record UploadResponse := mkUploadResponse {
  FilePath : string;
  Url : string;
  resp_FileSize : Z;
  UploadedAt : string
}.

(** The [oneof data] of [UploadStreamRequest] and of
    [DownloadStreamResponse]. *)
Inductive UploadStreamRequest :=
| Req_Metadata (m : FileMetadata)
| Req_Chunk (c : bytes)
| Req_unset.

Definition GetMetadata (r : UploadStreamRequest) : option FileMetadata :=
  match r with
  | Req_Metadata m => Some m
  | _ => None
  end.

(** [GetChunk] is [nil] for a frame that is no chunk, and for a chunk
    frame whose payload is [nil]. *)
Definition GetChunk (r : UploadStreamRequest) : bytes :=
  match r with
  | Req_Chunk c => c
  | _ => None
  end.

Record DownloadResponse := mkDownloadResponse {
  dl_FileName : string;
  dl_Content : list byte;
  dl_ContentType : string;
  dl_FileSize : Z
}.

Inductive DownloadStreamResponse :=
| Resp_Metadata (m : FileMetadata)
| Resp_Chunk (c : list byte).

Record DeleteResponse := mkDeleteResponse { Success : bool; Message : string }.
Record GetURLResponse := mkGetURLResponse { url_Url : string }.
Record GetFileInfoResponse := mkGetFileInfoResponse { info_FilePath : string; info_Url : string }.

(** The server side of the client-streaming call: what [Recv] will
    return, call after call ([io.EOF] once the list is used up), and the
    error [SendAndClose] will return. *)
Record UploadStreamServer := mkUploadStreamServer {
  inbox : list (UploadStreamRequest + error);
  sendclose_err : option Status
}.

Definition Recv (s : UploadStreamServer)
    : outcome error UploadStreamRequest * UploadStreamServer :=
  match inbox s with
  | [] => (Fail EOF, s)
  | inl req :: rest => (Ok req, mkUploadStreamServer rest (sendclose_err s))
  | inr e :: rest => (Fail e, mkUploadStreamServer rest (sendclose_err s))
  end.

(** The server side of the server-streaming call: the frames sent so far
    (each serialised when [Send] is called) and how many more sends the
    transport will accept ([None]: any number). *)
Record DownloadStreamServer := mkDownloadStreamServer {
  sent : list DownloadStreamResponse;
  send_budget : option nat
}.

Definition Send (s : DownloadStreamServer) (m : DownloadStreamResponse)
    : option error * DownloadStreamServer :=
  match send_budget s with
  | Some O => (Some (Err "transport is closing"), s)
  | Some (S k) => (None, mkDownloadStreamServer (sent s ++ [m]) (Some k))
  | None => (None, mkDownloadStreamServer (sent s ++ [m]) None)
  end.

End mediav1.

(** ** Package [handler]

    A request that carries nothing but a path ([DownloadRequest],
    [DeleteRequest], [GetURLRequest], [GetFileInfoRequest]) is given as
    that path. *)

Module handler.
Import mediav1.

Record MediaHandler := NewMediaHandler { service : service.MediaService }.

(** [func (h *MediaHandler) Upload(ctx, req)] *)
Definition Upload (h : MediaHandler) (req : UploadRequest) : M (outcome Status UploadResponse) :=
  do r <- service.UploadFile (service h) (up_FileName req) (up_Content req) (up_ContentType req);
  match r with
  | Fail err => ret (Fail (status_Errorf codes.Internal "failed to upload file: " err))
  | Ok filePath =>
      let url := service.GetFileURL (service h) filePath in
      let fileSize := int64.of_len (slice_data (up_Content req)) in
      do now <- time_Now;
      ret (Ok (mkUploadResponse filePath url fileSize (time.Format_RFC3339 now)))
  end.

(** The receive loop of [UploadStream], lines 84-105: one iteration per
    [stream.Recv()].  It ends with the byte count at [io.EOF], or with the
    status of the first receive or write error, the pipe then being
    closed with that error. *)
Fixpoint receive_chunks (inbox : list (UploadStreamRequest + error))
    (writer : io.PipeWriter) (totalBytes : Z) : io.PipeWriter * outcome Status Z :=
  match inbox with
  | [] => (writer, Ok totalBytes)
  | inr EOF :: _ => (writer, Ok totalBytes)
  | inr err :: _ =>
      (io.CloseWithError writer err,
       Fail (status_Errorf codes.Internal "failed to receive chunk: " err))
  | inl req :: rest =>
      match GetChunk req with
      | None => receive_chunks rest writer totalBytes
      | Some chunk =>
          let '(n, err, writer) := io.Write writer chunk in
          match err with
          | Some err =>
              (io.CloseWithError writer err,
               Fail (status_Errorf codes.Internal "failed to write chunk: " err))
          | None => receive_chunks rest writer (int64.add totalBytes (int64.wrap (Z.of_nat n)))
          end
      end
  end.

(** [func (h *MediaHandler) UploadStream(stream)].

    The goroutine started at line 77 and the receive loop share nothing
    but the pipe, and [io.Pipe] hands over every write in order; the
    storage call therefore sees what the read end yields of the pipe as
    the handler leaves it, closed ([io.pipe_reader]).  The model runs the
    loop first and the goroutine's call after it, to its end also when the
    handler returns early without waiting for the result.  Where the
    handler waits for the result (line 109) it has closed the pipe (line
    106), and the model asks for the proof of it: on an open pipe the
    storage call would not return and there would be no result to wait
    for. *)
Definition UploadStream (h : MediaHandler) (stream : UploadStreamServer)
    : M (outcome Status UploadResponse) :=
  match Recv stream with
  | (Fail err, _) =>
      ret (Fail (status_Errorf codes.InvalidArgument "failed to receive metadata: " err))
  | (Ok req, stream) =>
      match GetMetadata req with
      | None => ret (Fail (status_Error codes.InvalidArgument "first message must be metadata"))
      | Some metadata =>
          let upload reader :=
            service.UploadStream (service h) (FileName metadata) (FileSize metadata)
                                 reader (ContentType metadata) in
          match receive_chunks (inbox stream) io.Pipe 0 with
          | (writer, Fail st) =>
              match io.pipe_reader writer with
              | Some reader =>
                  do _ <- upload reader;
                  ret (Fail st)
              | None => ret (Fail st)
              end
          | (writer, Ok totalBytes) =>
              do result <- upload (io.closed_reader (io.Close writer) (io.Close_closed writer));
              match result with
              | Fail err => ret (Fail (status_Errorf codes.Internal "failed to upload file: " err))
              | Ok filePath =>
                  let url := service.GetFileURL (service h) filePath in
                  do now <- time_Now;
                  match sendclose_err stream with
                  | Some st => ret (Fail st)
                  | None =>
                      ret (Ok (mkUploadResponse filePath url totalBytes
                                                (time.Format_RFC3339 now)))
                  end
              end
          end
      end
  end.

(** [func (h *MediaHandler) Download(ctx, req)] *)
Definition Download (h : MediaHandler) (filePath : string)
    : M (outcome Status DownloadResponse) :=
  do r <- service.DownloadFile (service h) filePath;
  match r with
  | Fail err => ret (Fail (status_Errorf codes.NotFound "file not found: " err))
  | Ok reader =>
      match io.ReadAll reader with
      | (_, Some err) =>
          ret (Fail (status_Errorf codes.Internal "failed to read file content: " err))
      | (content, None) =>
          ret (Ok (mkDownloadResponse filePath content "application/octet-stream"
                                      (int64.of_len content)))
      end
  end.

(** [func (h *MediaHandler) Delete(ctx, req)] *)
Definition Delete (h : MediaHandler) (filePath : string) : M (outcome Status DeleteResponse) :=
  do err <- service.DeleteFile (service h) filePath;
  match err with
  | Some err => ret (Fail (status_Errorf codes.Internal "failed to delete file: " err))
  | None => ret (Ok (mkDeleteResponse true "File deleted successfully"))
  end.

(** [func (h *MediaHandler) GetURL(ctx, req)] *)
Definition GetURL (h : MediaHandler) (filePath : string) : M (outcome Status GetURLResponse) :=
  let url := service.GetFileURL (service h) filePath in
  ret (Ok (mkGetURLResponse url)).

(** [func (h *MediaHandler) GetFileInfo(ctx, req)] *)
Definition GetFileInfo (h : MediaHandler) (filePath : string)
    : M (outcome Status GetFileInfoResponse) :=
  let url := service.GetFileURL (service h) filePath in
  ret (Ok (mkGetFileInfoResponse filePath url)).

(** [buffer := make([]byte, 32*1024)] *)
Definition bufferSize : nat := 32 * 1024.

Lemma bufferSize_pos : 0 < bufferSize.
Proof. unfold bufferSize. lia. Qed.

(** [if n > 0 { stream.Send(chunk frame of buffer[:n]) }] *)
Definition send_chunk (stream : DownloadStreamServer) (buf : list byte)
    : option error * DownloadStreamServer :=
  if bool_decide (0 < length buf) then Send stream (Resp_Chunk buf) else (None, stream).

Definition inspect {A} (a : A) : {b | a = b} := exist _ a eq_refl.

Lemma Read_progress r n got r' :
  0 < n -> io.Read r n = (got, None, r') ->
  length (io.rd_data r') < length (io.rd_data r).
Proof.
  unfold io.Read. destruct (io.rd_data r) as [|b l] eqn:E; [discriminate|].
  intros Hn H. destruct n; [lia|].
  case_match; inversion H; subst; simpl; rewrite length_drop; lia.
Defined.

(** The chunk loop of [DownloadStream], lines 174-192, for a buffer of
    [n > 0] bytes.  Every turn that does not leave the loop has consumed
    at least one byte of the reader. *)
Equations? stream_chunks (n : nat) (Hn : 0 < n) (reader : io.Reader)
    (stream : DownloadStreamServer) : DownloadStreamServer * option Status
    by wf (length (io.rd_data reader)) lt :=
  stream_chunks n Hn reader stream with inspect (io.Read reader n) => {
    | exist _ (buf, Some err, _) _ with send_chunk stream buf => {
        | (Some serr, stream') :=
            (stream', Some (status_Errorf codes.Internal "failed to send chunk: " serr));
        | (None, stream') with err => {
            | EOF := (stream', None);
            | _ := (stream', Some (status_Errorf codes.Internal "failed to read file: " err)) } };
    | exist _ (buf, None, reader') Heq with send_chunk stream buf => {
        | (Some serr, stream') :=
            (stream', Some (status_Errorf codes.Internal "failed to send chunk: " serr));
        | (None, stream') := stream_chunks n Hn reader' stream' } }.
Proof. eapply Read_progress; [exact Hn | exact Heq]. Defined.

(** [func (h *MediaHandler) DownloadStream(req, stream)]: the stream as
    the call leaves it and the error returned. *)
Definition DownloadStream (h : MediaHandler) (filePath : string)
    (stream : DownloadStreamServer) : M (DownloadStreamServer * option Status) :=
  do r <- service.DownloadFile (service h) filePath;
  match r with
  | Fail err => ret (stream, Some (status_Errorf codes.NotFound "file not found: " err))
  | Ok reader =>
      match Send stream (Resp_Metadata (mkFileMetadata filePath 0 "")) with
      | (Some err, stream) =>
          ret (stream, Some (status_Errorf codes.Internal "failed to send metadata: " err))
      | (None, stream) => ret (stream_chunks bufferSize bufferSize_pos reader stream)
      end
  end.

End handler.

(** ** Package [config] and the start of the storage adapter

    [config.Config] is the struct of [internal/config/config.go].  The
    buckets of the MinIO server are kept in a state of their own, next to
    the oracles that decide which request about a bucket fails (request by
    request: a call that went through once may fail the next time), the
    number of requests made and the list of the [MakeBucket] requests. *)

Module config.

Record Config := mkConfig {
  GrpcHost : string;
  GrpcPort : Z;
  MinioEndpoint : string;
  MinioAccessKey : string;
  MinioSecretKey : string;
  MinioUseSSL : bool;
  MinioBucketName : string;
  MinioFileUrl : string
}.

End config.

Module startup.

Record Server := mkServer {
  buckets : gset string;
  new_fault : string -> bool -> option string;   (* endpoint, secure *)
  (** whether the [n]-th request to the server, about a bucket, fails *)
  exists_fault : nat -> string -> option string;
  make_fault : nat -> string -> option string;
  requests : nat;                                (* requests made so far *)
  made : list string                             (* every MakeBucket so far *)
}.

(** [minio.New(endpoint, &minio.Options{Creds: ..., Secure: secure})]: no
    request is made; the endpoint may be refused. *)
Definition New (endpoint : string) (secure : bool) (s : Server) : option error :=
  match new_fault s endpoint secure with
  | Some msg => Some (Err msg)
  | None => None
  end.

(** [client.BucketExists(ctx, bucket)]: one request, which may fail
    whatever the earlier ones did. *)
Definition BucketExists (bucket : string) (s : Server) : outcome error bool * Server :=
  let asked := mkServer (buckets s) (new_fault s) (exists_fault s) (make_fault s)
                        (S (requests s)) (made s) in
  match exists_fault s (requests s) bucket with
  | Some msg => (Fail (Err msg), asked)
  | None => (Ok (bool_decide (bucket ∈ buckets s)), asked)
  end.

(** [client.MakeBucket(ctx, bucket, opts)]: one request; the server refuses
    a name that is taken. *)
Definition MakeBucket (bucket : string) (s : Server) : option error * Server :=
  let asked := mkServer (buckets s) (new_fault s) (exists_fault s) (make_fault s)
                        (S (requests s)) (made s ++ [bucket]) in
  match make_fault s (requests s) bucket with
  | Some msg => (Some (Err msg), asked)
  | None =>
      if bool_decide (bucket ∈ buckets s)
      then (Some (Err "Your previous request to create the named bucket succeeded and you already own it."),
            asked)
      else (None, mkServer ({[bucket]} ∪ buckets s) (new_fault s) (exists_fault s)
                           (make_fault s) (S (requests s)) (made s ++ [bucket]))
  end.

(** [func (m *MinioStorage) ensureBucket(ctx)] *)
Definition ensureBucket (m : storage.MinioStorage) (s : Server) : option error * Server :=
  match BucketExists (storage.bucketName m) s with
  | (Fail err, s) => (Some (Errorf "failed to check bucket existence: " err), s)
  | (Ok exists_, s) =>
      if negb exists_ then
        match MakeBucket (storage.bucketName m) s with
        | (Some err, s) => (Some (Errorf "failed to create bucket: " err), s)
        | (None, s) => (None, s)
        end
      else (None, s)
  end.

(** [func NewMinioStorage(cfg, log)] *)
Definition NewMinioStorage (cfg : config.Config) (s : Server)
    : outcome error storage.MinioStorage * Server :=
  match New (config.MinioEndpoint cfg) (config.MinioUseSSL cfg) s with
  | Some err => (Fail (Errorf "failed to create minio client: " err), s)
  | None =>
      let storage := storage.mkMinioStorage (config.MinioBucketName cfg)
                                            (config.MinioFileUrl cfg) in
      match ensureBucket storage s with
      | (Some err, s) => (Fail (Errorf "failed to ensure bucket exists: " err), s)
      | (None, s) => (Ok storage, s)
      end
  end.

End startup.

(** ** Notions used in the statements *)

(** The wiring of the process: the MinIO adapter behind the service behind
    the handler. *)
Definition serve (m : storage.MinioStorage) : handler.MediaHandler :=
  handler.NewMediaHandler (service.NewMediaService (storage.Minio.as_Storage m)).

(** The first frame of the inbound stream is there and is a metadata frame. *)
Definition first_is_metadata (s : mediav1.UploadStreamServer) : bool :=
  match mediav1.inbox s with
  | inl (mediav1.Req_Metadata _) :: _ => true
  | _ => false
  end.

(** A client that sends the metadata frame [md], then one chunk frame for
    each payload of [cs], then closes its side. *)
Definition chunked_upload (md : mediav1.FileMetadata) (cs : list (list byte))
    (sendclose : option Status) : mediav1.UploadStreamServer :=
  mediav1.mkUploadStreamServer
    (inl (mediav1.Req_Metadata md) :: map (fun c => inl (mediav1.Req_Chunk (Some c))) cs)
    sendclose.

(** The storage key the next upload of a file named [fileName] generates in
    world [w]. *)
Definition next_key (fileName : string) (w : World) : string :=
  time.Format_date (clock w (clock_reads w)) +:+ "/"
  +:+ uuid.String (uuid_source w (uuid_drawn w)) +:+ filepath.Ext fileName.

(** The world after an upload that announced [call]: one identifier drawn,
    the clock read once, the request logged, the objects as given. *)
Definition after_upload (w : World) (call : PutCall)
    (objs : gmap (string * string) (list byte)) : World :=
  mkWorld objs (faults w) (uuid_source w) (S (uuid_drawn w))
          (clock w) (S (clock_reads w)) (puts w ++ [call]).

(** The pieces of at most [n] bytes a byte sequence falls into when it is
    cut from the front, [fuel] bounding their number. *)
Fixpoint pieces (fuel n : nat) (l : list byte) : list (list byte) :=
  match fuel with
  | O => []
  | S fuel' =>
      match l with
      | [] => []
      | _ :: _ => take n l :: pieces fuel' n (drop n l)
      end
  end.

(** Names without path separator, strings without dot. *)
Definition no_separator (s : string) : Prop :=
  existsb filepath.IsPathSeparator (GoString.to_list s) = false.

Definition no_dot (s : string) : Prop :=
  existsb (fun c => Ascii.eqb c ".") (GoString.to_list s) = false.

(** Reading two hexadecimal digits back into a byte. *)
Definition hex_value (c : ascii) : N :=
  match list_find (Ascii.eqb c) (GoString.to_list uuid.hextable) with
  | Some (i, _) => N.of_nat i
  | None => 0
  end.

Definition byte_of_hex (high low : ascii) : option byte :=
  Byte.of_N (16 * hex_value high + hex_value low).

(** Successive uploads under one file name, each with its own announced
    size, content and content type. *)
Fixpoint uploads (m : storage.MinioStorage) (fileName : string)
    (calls : list (Z * io.Reader * string)) : M (list (outcome error string)) :=
  match calls with
  | [] => ret []
  | (size, reader, contentType) :: rest =>
      do r <- storage.Minio.Upload m fileName size reader contentType;
      do rs <- uploads m fileName rest;
      ret (r :: rs)
  end.

(** The key of the [i]-th upload from world [w] on. *)
Definition key_at (fileName : string) (w : World) (i : nat) : string :=
  time.Format_date (clock w (clock_reads w + i)) +:+ "/"
  +:+ uuid.String (uuid_source w (uuid_drawn w + i)) +:+ filepath.Ext fileName.

(** The keys of the requests that reached the object store between world
    [w] and world [w']. *)
Definition keys_written (w w' : World) : list string :=
  map put_key (drop (length (puts w)) (puts w')).

#[global] Instance byte_eq_dec : EqDecision byte := Byte.byte_eq_dec.

(** ** A concrete deployment, for running the definitions *)

Module demo.
Import mediav1.

Definition no_faults : Faults :=
  mkFaults (fun _ => None) (fun _ _ => None) (fun _ _ => None)
           (fun _ _ => None) (fun _ _ => None) io.EndOnShort.

(** The [n]-th identifier drawn: fifteen zero bytes and the byte [n]. *)
Definition ids (n : nat) : uuid.UUID :=
  vreplicate 15 x00 +++ [# default xff (Byte.of_nat n)].

(** It is noon of 1 January 2024, UTC, and every reading of the clock
    takes a second. *)
Definition noon (n : nat) : time.Time := time.mkTime 2024 1 1 12 0 n 0.

Definition world0 : World := mkWorld ∅ no_faults ids 0 noon 0 [].

Definition store : storage.MinioStorage :=
  storage.mkMinioStorage "media" "https://cdn.example.com".

Definition h : handler.MediaHandler := serve store.

Definition hello : list byte := [x68; x65; x6c; x6c; x6f].

Definition meta : FileMetadata := mkFileMetadata "a.txt" 5 "text/plain".

Definition hello_stream : UploadStreamServer :=
  mkUploadStreamServer
    [inl (Req_Metadata meta); inl (Req_Chunk (Some [x68; x65]));
     inl (Req_Chunk (Some [x6c; x6c; x6f]))] None.

Definition fresh_stream : DownloadStreamServer := mkDownloadStreamServer [] None.

Definition key0 : string := "2024/01/01/00000000-0000-0000-0000-000000000000.txt".

(** Three uploads that differ in everything but the file name. *)
Definition three_calls : list (Z * io.Reader * string) :=
  [(5%Z, io.NewReader (Some hello), "text/plain");
   (5%Z, io.NewReader (Some hello), "text/plain");
   (0%Z, io.NewReader None, "")].

End demo.

(** A second deployment, with a store that refuses every write, and a
    server without buckets. *)
Module demo2.

Definition refusing : Faults :=
  mkFaults (fun _ => Some "Access Denied.") (fun _ _ => None) (fun _ _ => None)
           (fun _ _ => None) (fun _ _ => None) io.EndLazy.

Definition world_refusing : World := mkWorld ∅ refusing demo.ids 0 demo.noon 0 [].

(** The object [k] of bucket [media] holds [hello]; reading it breaks after
    three bytes. *)
Definition breaking : Faults :=
  mkFaults (fun _ => None) (fun _ _ => None) (fun _ _ => None)
           (fun _ _ => Some (3, "connection reset")) (fun _ _ => None) io.EndLazy.

Definition world_breaking : World :=
  mkWorld {[ ("media", "k") := demo.hello ]} breaking demo.ids 0 demo.noon 0 [].

Definition world_stored : World :=
  mkWorld {[ ("media", "k") := demo.hello ]} demo.no_faults demo.ids 0 demo.noon 0 [].

Definition cfg : config.Config :=
  config.mkConfig "localhost" 5051 "minio:9000" "access" "secret" false
                  "media" "https://cdn.example.com".

Definition server0 : startup.Server :=
  startup.mkServer ∅ (fun _ _ => None) (fun _ _ => None) (fun _ _ => None) 0 [].

(** A server whose third request fails. *)
Definition server_flaky : startup.Server :=
  startup.mkServer ∅ (fun _ _ => None)
    (fun n _ => if Nat.eqb n 2 then Some "connection refused" else None)
    (fun _ _ => None) 0 [].

(** The store holds [k] and refuses to remove anything. *)
Definition locked : Faults :=
  mkFaults (fun _ => None) (fun _ _ => None) (fun _ _ => None)
           (fun _ _ => None) (fun _ _ => Some "Access Denied.") io.EndLazy.

Definition world_locked : World :=
  mkWorld {[ ("media", "k") := demo.hello ]} locked demo.ids 0 demo.noon 0 [].

End demo2.

(** * Running the definitions *)

Example Ext_report : filepath.Ext "report.pdf" = ".pdf".
Proof. reflexivity. Qed.
Example Ext_noext : filepath.Ext "noext" = "".
Proof. reflexivity. Qed.
Example Ext_two_dots : filepath.Ext "a.tar.gz" = ".gz".
Proof. reflexivity. Qed.
Example Ext_dir_dot : filepath.Ext "a.b/c" = "".
Proof. reflexivity. Qed.
Example from_last_dot_dir_dot : from_last_dot "a.b/c" = ".b/c".
Proof. reflexivity. Qed.

Example Format_date_ex :
  time.Format_date (time.mkTime 2024 1 9 13 5 0 0) = "2024/01/09".
Proof. reflexivity. Qed.
Example Format_RFC3339_ex :
  time.Format_RFC3339 (time.mkTime 2024 1 9 13 5 0 18000) = "2024-01-09T13:05:00+05:00".
Proof. reflexivity. Qed.
Example Format_RFC3339_utc :
  time.Format_RFC3339 (time.mkTime 2024 12 31 23 59 59 0) = "2024-12-31T23:59:59Z".
Proof. reflexivity. Qed.

Example uuid_String_ex :
  uuid.String [# x00; x01; x02; x03; x04; x05; x06; x07;
                 x08; x09; x0a; x0b; x0c; x0d; xfe; xff]
  = "00010203-0405-0607-0809-0a0b0c0dfeff".
Proof. reflexivity. Qed.

Example Read_short :
  io.Read (io.mkReader [x01; x02; x03] EOF io.EndOnShort) 2
  = ([x01; x02], None, io.mkReader [x03] EOF io.EndOnShort).
Proof. reflexivity. Qed.
Example Read_last :
  io.Read (io.mkReader [x03] EOF io.EndOnShort) 2
  = ([x03], Some EOF, io.mkReader [] EOF io.EndOnShort).
Proof. reflexivity. Qed.

Example demo_Upload :
  (handler.Upload demo.h (mediav1.mkUploadRequest "a.txt" (Some demo.hello) "text/plain")
                  demo.world0).1
  = Ok (mediav1.mkUploadResponse demo.key0
          "https://cdn.example.com/media/2024/01/01/00000000-0000-0000-0000-000000000000.txt"
          5 "2024-01-01T12:00:01Z").
Proof. reflexivity. Qed.

Example demo_UploadStream :
  (handler.UploadStream demo.h demo.hello_stream demo.world0).1
  = Ok (mediav1.mkUploadResponse demo.key0
          "https://cdn.example.com/media/2024/01/01/00000000-0000-0000-0000-000000000000.txt"
          5 "2024-01-01T12:00:01Z").
Proof. reflexivity. Qed.

Example demo_UploadStream_stored :
  objects (handler.UploadStream demo.h demo.hello_stream demo.world0).2
    !! ("media", demo.key0) = Some demo.hello.
Proof. reflexivity. Qed.

(** Upload, then download what was stored: the bytes come back. *)
Example demo_round_trip :
  let w := (handler.Upload demo.h
              (mediav1.mkUploadRequest "a.txt" (Some demo.hello) "text/plain")
              demo.world0).2 in
  (handler.Download demo.h demo.key0 w).1
  = Ok (mediav1.mkDownloadResponse demo.key0 demo.hello "application/octet-stream" 5).
Proof. reflexivity. Qed.

Example demo_DownloadStream :
  let w := (handler.UploadStream demo.h demo.hello_stream demo.world0).2 in
  (handler.DownloadStream demo.h demo.key0 demo.fresh_stream w).1
  = (mediav1.mkDownloadStreamServer
       [mediav1.Resp_Metadata (mediav1.mkFileMetadata demo.key0 0 "");
        mediav1.Resp_Chunk demo.hello] None, None).
Proof. reflexivity. Qed.

Example demo_Download_missing :
  (handler.Download demo.h "nonexistent/key" demo.world0).1
  = Fail (mkStatus codes.NotFound
            "file not found: file not found: The specified key does not exist.").
Proof. reflexivity. Qed.

Example demo_chunk_first :
  handler.UploadStream demo.h
    (mediav1.mkUploadStreamServer [inl (mediav1.Req_Chunk (Some demo.hello))] None)
    demo.world0
  = (Fail (mkStatus codes.InvalidArgument "first message must be metadata"), demo.world0).
Proof. reflexivity. Qed.

(** A receive error in the middle of an upload: the call fails with
    [Internal], the storage write is aborted with the same error after the
    bytes already sent, and nothing is stored. *)
Example demo_UploadStream_broken :
  let run := handler.UploadStream demo.h
               (mediav1.mkUploadStreamServer
                  [inl (mediav1.Req_Metadata demo.meta);
                   inl (mediav1.Req_Chunk (Some [x68; x65]));
                   inr (Err "connection reset")] None)
               demo.world0 in
  run.1 = Fail (mkStatus codes.Internal "failed to receive chunk: connection reset") /\
  puts run.2 = [mkPutCall "media" demo.key0 [x68; x65] (Err "connection reset") 5 "text/plain"] /\
  objects run.2 = ∅.
Proof. repeat split. Qed.

(** A transport that takes two frames only: the download stops with
    [Internal] at the third. *)
Example demo_stream_chunks_send_fails :
  (handler.stream_chunks 2 (Nat.lt_0_succ 1) (io.mkReader demo.hello EOF io.EndLazy)
     (mediav1.mkDownloadStreamServer [] (Some 2)))
  = (mediav1.mkDownloadStreamServer
       [mediav1.Resp_Chunk [x68; x65]; mediav1.Resp_Chunk [x6c; x6c]] (Some 0),
     Some (mkStatus codes.Internal "failed to send chunk: transport is closing")).
Proof. reflexivity. Qed.

(** A read that breaks after three bytes: the bytes read are sent, then the
    call fails with [Internal]. *)
Example demo_stream_chunks_read_fails :
  handler.stream_chunks 2 (Nat.lt_0_succ 1)
    (io.mkReader [x68; x65; x6c] (Err "unexpected EOF") io.EndOnShort)
    demo.fresh_stream
  = (mediav1.mkDownloadStreamServer
       [mediav1.Resp_Chunk [x68; x65]; mediav1.Resp_Chunk [x6c]] None,
     Some (mkStatus codes.Internal "failed to read file: unexpected EOF")).
Proof. reflexivity. Qed.

(** * Properties *)

Import mediav1.

(** ** Strings and their byte lists *)

Lemma gostring_of_to_list s : GoString.of_list (GoString.to_list s) = s.
Proof. induction s as [|c s IH]; simpl; congruence. Qed.

Lemma gostring_to_of_list l : GoString.to_list (GoString.of_list l) = l.
Proof. induction l as [|c l IH]; simpl; congruence. Qed.

Lemma gostring_app_cons c s t : String c s +:+ t = String c (s +:+ t).
Proof. reflexivity. Qed.

Lemma gostring_to_list_app s t :
  GoString.to_list (s +:+ t) = GoString.to_list s ++ GoString.to_list t.
Proof.
  induction s as [|c s IH]; [done|]. rewrite gostring_app_cons. simpl. now rewrite IH.
Qed.

Lemma gostring_to_list_inj s t : GoString.to_list s = GoString.to_list t -> s = t.
Proof.
  intros H. rewrite <- (gostring_of_to_list s), <- (gostring_of_to_list t). now rewrite H.
Qed.

Lemma gostring_length_to_list s : length (GoString.to_list s) = String.length s.
Proof. induction s as [|c s IH]; simpl; congruence. Qed.

Lemma gostring_length_app s t : String.length (s +:+ t) = String.length s + String.length t.
Proof. rewrite <- !gostring_length_to_list, gostring_to_list_app. apply length_app. Qed.

Lemma gostring_app_assoc s t u : (s +:+ t) +:+ u = s +:+ t +:+ u.
Proof. induction s as [|c s IH]; [done|]. rewrite !gostring_app_cons. now rewrite IH. Qed.

Lemma gostring_app_nil_r s : s +:+ "" = s.
Proof. induction s as [|c s IH]; [done|]. rewrite gostring_app_cons. now rewrite IH. Qed.

(** Two concatenations with right parts of the same length agree
    componentwise. *)
Lemma gostring_app_inj_tail_length s1 s2 t1 t2 :
  String.length t1 = String.length t2 ->
  s1 +:+ t1 = s2 +:+ t2 -> s1 = s2 /\ t1 = t2.
Proof.
  intros Hlen Heq.
  apply (f_equal GoString.to_list) in Heq. rewrite !gostring_to_list_app in Heq.
  apply app_inj_2 in Heq; [|now rewrite !gostring_length_to_list].
  destruct Heq; split; now apply gostring_to_list_inj.
Qed.

(** ** URL derivation *)

Example GetURL_cdn :
  storage.Minio.GetURL (storage.mkMinioStorage "media" "https://cdn.example.com")
                       "2024/01/01/abc.png"
  = "https://cdn.example.com/media/2024/01/01/abc.png".
Proof. reflexivity. Qed.

Example GetURL_no_base :
  storage.Minio.GetURL (storage.mkMinioStorage "media" "") "2024/01/01/abc.png" = "".
Proof. reflexivity. Qed.

(** C6. The [GetURL] call answers, for every key [k] and in every state of
    the world, with the string [fileURL/bucket/k] when a base URL is
    configured and with the empty string when it is not; it always succeeds
    and leaves the world as it was (no request reaches the object store). *)
Theorem GetURL_derivation (m : storage.MinioStorage) (k : string) (w : World) :
  handler.GetURL (serve m) k w
  = (Ok (mkGetURLResponse
           (if decide (storage.fileURL m = "") then ""
            else storage.fileURL m +:+ "/" +:+ storage.bucketName m +:+ "/" +:+ k)),
     w).
Proof.
  unfold handler.GetURL, service.GetFileURL, ret; simpl.
  unfold storage.Minio.GetURL. now case_bool_decide; case_decide.
Qed.

(** C10. [GetFileInfo] never fails and never looks at the object store: for
    every path [p], the empty one included, and whatever is or is not
    stored, it answers [{filePath: p, url: u}] where [u] is the URL of [p]
    as the storage formats it, the one [GetURL] answers too; [u] does not
    depend on the state of the world, and the world is unchanged. *)
Theorem GetFileInfo_echo (h : handler.MediaHandler) (p : string) (w : World) :
  let u := storage.GetURL (service.storage (handler.service h)) p in
  handler.GetFileInfo h p w = (Ok (mkGetFileInfoResponse p u), w) /\
  handler.GetURL h p w = (Ok (mkGetURLResponse u), w).
Proof. split; reflexivity. Qed.

Example GetFileInfo_nothing_stored :
  handler.GetFileInfo demo.h "" demo.world0
  = (Ok (mkGetFileInfoResponse "" "https://cdn.example.com/media/"), demo.world0).
Proof. reflexivity. Qed.

(** ** Download of what storage cannot open *)

(** The MinIO adapter gives no read handle for a key under which nothing is
    stored. *)
Lemma Minio_Download_absent (m : storage.MinioStorage) (p : string) (w : World) :
  objects w !! (storage.bucketName m, p) = None ->
  exists e, storage.Minio.Download m p w = (Fail e, w).
Proof.
  intros Habs. unfold storage.Minio.Download, bind, minio.GetObject.
  destruct (get_fault (faults w) (storage.bucketName m) p) as [msg|]; [by eexists|].
  unfold minio.Stat; simpl. rewrite Habs. by eexists.
Qed.

(** C5. Whenever the storage capability fails to give a read handle for a
    path (whatever the error), [Download] and [DownloadStream] both fail
    with [NotFound], and [DownloadStream] leaves its stream untouched: no
    frame was sent. *)
Theorem Download_failure_is_NotFound (h : handler.MediaHandler) (p : string)
    (stream : DownloadStreamServer) (w w' : World) (e : error) :
  storage.Download (service.storage (handler.service h)) p w = (Fail e, w') ->
  handler.Download h p w
    = (Fail (mkStatus codes.NotFound ("file not found: " +:+ Error e)), w') /\
  handler.DownloadStream h p stream w
    = ((stream, Some (mkStatus codes.NotFound ("file not found: " +:+ Error e))), w').
Proof.
  intros Hfail.
  unfold handler.Download, handler.DownloadStream, service.DownloadFile, bind.
  rewrite Hfail. split; reflexivity.
Qed.

Lemma Download_failure_is_NotFound_witness :
  storage.Download (service.storage (handler.service demo.h)) "nonexistent/key" demo.world0
    = (Fail (Err "file not found: The specified key does not exist."), demo.world0) /\
  handler.Download demo.h "nonexistent/key" demo.world0
    = (Fail (mkStatus codes.NotFound
               "file not found: file not found: The specified key does not exist."),
       demo.world0) /\
  handler.DownloadStream demo.h "nonexistent/key" demo.fresh_stream demo.world0
    = ((demo.fresh_stream,
        Some (mkStatus codes.NotFound
                "file not found: file not found: The specified key does not exist.")),
       demo.world0).
Proof.
  split; [reflexivity|].
  apply (Download_failure_is_NotFound demo.h "nonexistent/key" demo.fresh_stream
           demo.world0 demo.world0
           (Err "file not found: The specified key does not exist.")).
  reflexivity.
Defined.

(** ** The upload bridge *)

(** C2. If the inbound stream does not begin with a metadata frame (it
    begins with a chunk frame, with a frame that carries nothing, with a
    receive error, or it ends before any frame), [UploadStream] fails with
    [InvalidArgument] and the world is unchanged: the storage was not
    called, nothing was written, no identifier was drawn. *)
Theorem UploadStream_needs_metadata_first (h : handler.MediaHandler)
    (stream : UploadStreamServer) (w : World) :
  first_is_metadata stream = false ->
  exists msg,
    handler.UploadStream h stream w = (Fail (mkStatus codes.InvalidArgument msg), w).
Proof.
  unfold first_is_metadata, handler.UploadStream, Recv.
  destruct (inbox stream) as [|[req|e] rest]; intros Hfirst.
  - by eexists.
  - destruct req as [md|c|]; [discriminate| |]; by eexists.
  - by eexists.
Qed.

Lemma UploadStream_needs_metadata_first_witness :
  first_is_metadata (mkUploadStreamServer [inl (Req_Chunk (Some demo.hello))] None) = false /\
  exists msg,
    handler.UploadStream demo.h
      (mkUploadStreamServer [inl (Req_Chunk (Some demo.hello))] None) demo.world0
    = (Fail (mkStatus codes.InvalidArgument msg), demo.world0).
Proof.
  split; [reflexivity|].
  apply (UploadStream_needs_metadata_first demo.h
           (mkUploadStreamServer [inl (Req_Chunk (Some demo.hello))] None) demo.world0).
  reflexivity.
Defined.

Example UploadStream_empty_stream :
  handler.UploadStream demo.h (mkUploadStreamServer [] None) demo.world0
  = (Fail (mkStatus codes.InvalidArgument "failed to receive metadata: EOF"), demo.world0).
Proof. reflexivity. Qed.

(** A frame without chunk payload changes nothing in the receive loop,
    wherever it stands. *)
Lemma receive_chunks_skip pre req post writer total :
  GetChunk req = None ->
  handler.receive_chunks (pre ++ inl req :: post) writer total
  = handler.receive_chunks (pre ++ post) writer total.
Proof.
  intros Hnil. revert writer total.
  induction pre as [|[r|e] pre IH]; intros writer total; simpl.
  - now rewrite Hnil.
  - destruct (GetChunk r) as [chunk|]; [|apply IH].
    destruct (io.Write writer chunk) as [[n [err|]] writer']; [reflexivity|apply IH].
  - reflexivity.
Qed.

(** C8. A frame after the first that carries no chunk payload (a second
    metadata frame, a frame with nothing set, a chunk frame whose payload is
    nil) is skipped: the receive loop goes on with the same pipe and the
    same byte count and raises no error, and the whole call ends exactly as
    it does without that frame, with the same answer and the same state of
    the world. *)
Theorem UploadStream_skips_non_chunk (h : handler.MediaHandler) (md : FileMetadata)
    (pre post : list (UploadStreamRequest + error)) (req : UploadStreamRequest)
    (sendclose : option Status) (w : World) :
  GetChunk req = None ->
  (forall writer total,
     handler.receive_chunks (inl req :: post) writer total
     = handler.receive_chunks post writer total) /\
  handler.UploadStream h
    (mkUploadStreamServer (inl (Req_Metadata md) :: pre ++ inl req :: post) sendclose) w
  = handler.UploadStream h
      (mkUploadStreamServer (inl (Req_Metadata md) :: pre ++ post) sendclose) w.
Proof.
  intros Hnil. split.
  - intros writer total. apply (receive_chunks_skip [] req post writer total Hnil).
  - unfold handler.UploadStream. simpl. now rewrite receive_chunks_skip.
Qed.

Lemma UploadStream_skips_non_chunk_witness :
  GetChunk (Req_Metadata demo.meta) = None /\
  handler.UploadStream demo.h
    (mkUploadStreamServer
       (inl (Req_Metadata demo.meta)
        :: [inl (Req_Chunk (Some [x68; x65]))]
        ++ inl (Req_Metadata demo.meta) :: [inl (Req_Chunk (Some [x6c; x6c; x6f]))]) None)
    demo.world0
  = handler.UploadStream demo.h demo.hello_stream demo.world0.
Proof.
  split; [reflexivity|].
  apply (UploadStream_skips_non_chunk demo.h demo.meta
           [inl (Req_Chunk (Some [x68; x65]))]
           [inl (Req_Chunk (Some [x6c; x6c; x6f]))]
           (Req_Metadata demo.meta) None demo.world0).
  reflexivity.
Defined.

(** With a second metadata frame and an unset frame in its middle, the
    upload completes and counts the five bytes of the two chunks. *)
Example UploadStream_with_stray_frames :
  (handler.UploadStream demo.h
     (mkUploadStreamServer
        [inl (Req_Metadata demo.meta); inl (Req_Chunk (Some [x68; x65]));
         inl (Req_Metadata (mkFileMetadata "b.bin" 9 "")); inl Req_unset;
         inl (Req_Chunk None); inl (Req_Chunk (Some [x6c; x6c; x6f]))] None)
     demo.world0).1
  = Ok (mkUploadResponse demo.key0
          "https://cdn.example.com/media/2024/01/01/00000000-0000-0000-0000-000000000000.txt"
          5 "2024-01-01T12:00:01Z").
Proof. reflexivity. Qed.

(** *** What one call of the MinIO adapter's [Upload] does *)

Lemma Minio_Upload_run (m : storage.MinioStorage) (fileName : string) (size : Z)
    (reader : io.Reader) (contentType : string) (w : World) :
  let key := next_key fileName w in
  let call := mkPutCall (storage.bucketName m) key (io.rd_data reader)
                        (io.rd_end reader) size contentType in
  storage.Minio.Upload m fileName size reader contentType w
  = match io.rd_end reader with
    | Err msg =>
        (Fail (Err ("failed to upload file: " +:+ msg)), after_upload w call (objects w))
    | EOF =>
        match put_fault (faults w) call with
        | Some msg =>
            (Fail (Err ("failed to upload file: " +:+ msg)), after_upload w call (objects w))
        | None =>
            (Ok key,
             after_upload w call (<[(storage.bucketName m, key) := io.rd_data reader]> (objects w)))
        end
    end.
Proof.
  intros key call.
  unfold storage.Minio.Upload, bind, uuid_NewString, time_Now, minio.PutObject; simpl.
  fold (next_key fileName w). fold key. fold call.
  destruct (io.rd_end reader) as [|msg]; [|reflexivity].
  destruct (put_fault (faults w) call) as [msg|]; reflexivity.
Qed.

(** *** [int64] arithmetic of the byte counter *)

Lemma int64_wrap_small (z : Z) : (- 2 ^ 63 <= z < 2 ^ 63)%Z -> int64.wrap z = z.
Proof. intros Hz. unfold int64.wrap. rewrite Z.mod_small; lia. Qed.

Lemma int64_wrap_add_l (a b : Z) : int64.wrap (int64.wrap a + b) = int64.wrap (a + b).
Proof.
  unfold int64.wrap. f_equal.
  replace ((a + 2 ^ 63) `mod` 2 ^ 64 - 2 ^ 63 + b + 2 ^ 63)%Z
    with ((a + 2 ^ 63) `mod` 2 ^ 64 + b)%Z by lia.
  rewrite Zplus_mod_idemp_l. f_equal. lia.
Qed.

Lemma int64_add_wrap (a b : Z) :
  int64.add (int64.wrap a) (int64.wrap b) = int64.wrap (a + b).
Proof.
  unfold int64.add. rewrite int64_wrap_add_l, Z.add_comm, int64_wrap_add_l.
  f_equal. lia.
Qed.

(** *** The receive loop over chunk frames only *)

Lemma receive_chunks_chunks (cs : list (list byte)) (data : list byte) (n : Z) :
  handler.receive_chunks (map (fun c => inl (Req_Chunk (Some c))) cs)
                         (io.mkPipe data None None) (int64.wrap n)
  = (io.mkPipe (data ++ concat cs) None None,
     Ok (int64.wrap (n + Z.of_nat (length (concat cs))))).
Proof.
  revert data n. induction cs as [|c cs IH]; intros data n; simpl.
  - now rewrite app_nil_r, Z.add_0_r.
  - rewrite int64_add_wrap, IH, <- app_assoc, length_app. do 3 f_equal. lia.
Qed.

(** The streamed bytes reach the storage write whole and in order, whether
    or not the storage then accepts them: the request logged by the object
    store carries the concatenation of the chunk payloads, ended cleanly. *)
Lemma UploadStream_delivers (m : storage.MinioStorage) (md : FileMetadata)
    (cs : list (list byte)) (sendclose : option Status) (w : World) :
  puts (handler.UploadStream (serve m) (chunked_upload md cs sendclose) w).2
  = puts w ++ [mkPutCall (storage.bucketName m) (next_key (FileName md) w)
                         (concat cs) EOF (FileSize md) (ContentType md)].
Proof.
  unfold handler.UploadStream, chunked_upload, Recv; simpl.
  change 0%Z with (int64.wrap 0) at 1.
  unfold io.Pipe. rewrite receive_chunks_chunks. simpl.
  unfold bind, service.UploadStream; simpl.
  rewrite Minio_Upload_run; simpl.
  destruct (put_fault _ _) as [msg|]; simpl; [reflexivity|].
  destruct sendclose; reflexivity.
Qed.

(** C9. A metadata frame followed at once by the end of the input is no
    protocol error.  The receive loop ends with nothing written and
    without error; the handler then closes the pipe cleanly, and only by
    this close do the reads of the storage write come to an end (an open
    pipe has none), a clean end with no bytes.  The storage write is
    awaited, and when the storage accepts it the call answers with the
    generated key, its URL and [fileSize = 0]; the request the store got
    has an empty body ended by [EOF], and the object stored under that key
    is empty. *)
Theorem UploadStream_no_chunks (m : storage.MinioStorage) (md : FileMetadata) (w : World) :
  let key := next_key (FileName md) w in
  let call := mkPutCall (storage.bucketName m) key [] EOF (FileSize md) (ContentType md) in
  put_fault (faults w) call = None ->
  handler.receive_chunks [] io.Pipe 0 = (io.Pipe, Ok 0%Z) /\
  io.pipe_reader io.Pipe = None /\
  io.pipe_reader (io.Close io.Pipe) = Some (io.mkReader [] EOF io.EndLazy) /\
  handler.UploadStream (serve m) (mkUploadStreamServer [inl (Req_Metadata md)] None) w
  = (Ok (mkUploadResponse key (storage.Minio.GetURL m key) 0
           (time.Format_RFC3339 (clock w (S (clock_reads w))))),
     mkWorld (<[(storage.bucketName m, key) := []]> (objects w)) (faults w)
             (uuid_source w) (S (uuid_drawn w)) (clock w) (S (S (clock_reads w)))
             (puts w ++ [call])).
Proof.
  intros key call Hok.
  split; [reflexivity|]. split; [reflexivity|]. split; [reflexivity|].
  unfold handler.UploadStream, Recv; simpl.
  unfold bind, service.UploadStream; simpl.
  rewrite Minio_Upload_run; simpl. fold key. fold call. rewrite Hok.
  reflexivity.
Qed.

Lemma UploadStream_no_chunks_witness :
  put_fault (faults demo.world0)
    (mkPutCall "media" demo.key0 [] EOF 5 "text/plain") = None /\
  handler.receive_chunks [] io.Pipe 0 = (io.Pipe, Ok 0%Z) /\
  io.pipe_reader io.Pipe = None /\
  io.pipe_reader (io.Close io.Pipe) = Some (io.mkReader [] EOF io.EndLazy) /\
  handler.UploadStream demo.h (mkUploadStreamServer [inl (Req_Metadata demo.meta)] None)
                       demo.world0
  = (Ok (mkUploadResponse demo.key0
           "https://cdn.example.com/media/2024/01/01/00000000-0000-0000-0000-000000000000.txt"
           0 "2024-01-01T12:00:01Z"),
     mkWorld (<[("media", demo.key0) := []]> ∅) demo.no_faults demo.ids 1 demo.noon 2
             [mkPutCall "media" demo.key0 [] EOF 5 "text/plain"]).
Proof.
  split; [reflexivity|].
  apply (UploadStream_no_chunks demo.store demo.meta demo.world0). reflexivity.
Defined.

(** C1. A streamed upload of metadata [md] and chunk payloads [cs] hands
    the storage write exactly the concatenation of the payloads, under the
    same key and content type as the whole-body upload of that
    concatenation under the same file name; when the storage accepts both
    writes the two leave the same objects behind, holding those bytes, and
    both answer with the same path and with [fileSize] equal to the number
    of bytes sent, whatever size the metadata frame announced. *)
Theorem UploadStream_equals_Upload (m : storage.MinioStorage) (md : FileMetadata)
    (cs : list (list byte)) (w : World) :
  let body := concat cs in
  let key := next_key (FileName md) w in
  let streamed := mkPutCall (storage.bucketName m) key body EOF
                            (FileSize md) (ContentType md) in
  let whole := mkPutCall (storage.bucketName m) key body EOF
                         (int64.of_len body) (ContentType md) in
  (Z.of_nat (length body) < 2 ^ 63)%Z ->
  put_fault (faults w) streamed = None ->
  put_fault (faults w) whole = None ->
  exists ws wu url at_,
    handler.UploadStream (serve m) (chunked_upload md cs None) w
      = (Ok (mkUploadResponse key url (Z.of_nat (length body)) at_), ws) /\
    handler.Upload (serve m) (mkUploadRequest (FileName md) (Some body) (ContentType md)) w
      = (Ok (mkUploadResponse key url (Z.of_nat (length body)) at_), wu) /\
    puts ws = puts w ++ [streamed] /\
    puts wu = puts w ++ [whole] /\
    objects ws = <[(storage.bucketName m, key) := body]> (objects w) /\
    objects wu = objects ws.
Proof.
  intros body key streamed whole Hlen Hs Hw.
  unfold handler.UploadStream, chunked_upload, Recv; simpl.
  change 0%Z with (int64.wrap 0) at 1.
  unfold io.Pipe. rewrite receive_chunks_chunks. simpl.
  unfold handler.Upload, bind, service.UploadStream, service.UploadFile; simpl.
  rewrite !Minio_Upload_run; simpl.
  fold body. fold key. fold streamed. fold whole. rewrite Hs, Hw. simpl.
  unfold int64.of_len. rewrite Z.add_0_l.
  rewrite (int64_wrap_small (Z.of_nat (length body))) by lia.
  do 4 eexists. repeat split; reflexivity.
Qed.

Lemma UploadStream_equals_Upload_witness :
  (Z.of_nat (length (concat [[x68; x65]; [x6c; x6c; x6f]])) < 2 ^ 63)%Z /\
  exists ws wu url at_,
    handler.UploadStream demo.h demo.hello_stream demo.world0
      = (Ok (mkUploadResponse demo.key0 url 5 at_), ws) /\
    handler.Upload demo.h (mkUploadRequest "a.txt" (Some demo.hello) "text/plain") demo.world0
      = (Ok (mkUploadResponse demo.key0 url 5 at_), wu) /\
    puts ws = [mkPutCall "media" demo.key0 demo.hello EOF 5 "text/plain"] /\
    puts wu = [mkPutCall "media" demo.key0 demo.hello EOF 5 "text/plain"] /\
    objects ws = <[("media", demo.key0) := demo.hello]> ∅ /\
    objects wu = objects ws.
Proof.
  split; [simpl; lia|].
  apply (UploadStream_equals_Upload demo.store demo.meta [[x68; x65]; [x6c; x6c; x6f]]
           demo.world0); [simpl; lia|reflexivity|reflexivity].
Defined.

(** ** The download bridge *)

(** One turn of the chunk loop, as the Go text reads. *)
Lemma stream_chunks_unfold n Hn reader stream :
  handler.stream_chunks n Hn reader stream
  = let '(buf, err, reader') := io.Read reader n in
    match handler.send_chunk stream buf with
    | (Some serr, stream') =>
        (stream', Some (status_Errorf codes.Internal "failed to send chunk: " serr))
    | (None, stream') =>
        match err with
        | Some EOF => (stream', None)
        | Some e => (stream', Some (status_Errorf codes.Internal "failed to read file: " e))
        | None => handler.stream_chunks n Hn reader' stream'
        end
    end.
Proof.
  funelim (handler.stream_chunks n Hn reader stream); try rewrite <- Heqcall;
    match goal with E : io.Read _ _ = _ |- _ => rewrite E end;
    match goal with E : handler.send_chunk _ _ = _ |- _ => rewrite E end;
    reflexivity.
Qed.

Lemma pieces_nil fuel n : pieces fuel n [] = [].
Proof. now destruct fuel. Qed.

(** Over a reader that ends cleanly and a transport that takes every frame,
    the loop sends the pieces of the data, one frame each, and nothing
    after them, however the reader announces its end. *)
Lemma stream_chunks_clean (fuel n : nat) (Hn : 0 < n) (data : list byte)
    (policy : io.EndPolicy) (frames : list DownloadStreamResponse) :
  length data <= fuel ->
  handler.stream_chunks n Hn (io.mkReader data EOF policy)
                        (mkDownloadStreamServer frames None)
  = (mkDownloadStreamServer (frames ++ map Resp_Chunk (pieces fuel n data)) None, None).
Proof.
  revert data frames. induction fuel as [|fuel IH]; intros data frames Hlen.
  - destruct data; [|simpl in Hlen; lia].
    rewrite stream_chunks_unfold. simpl. now rewrite app_nil_r.
  - rewrite stream_chunks_unfold. destruct data as [|b data].
    { simpl. now rewrite app_nil_r. }
    unfold io.Read. cbn [io.rd_data io.rd_end io.rd_policy].
    set (got := take n (b :: data)). set (rest := drop n (b :: data)).
    assert (Hgot : 0 < length got).
    { subst got. rewrite length_take. simpl. lia. }
    assert (Hrest : length rest <= fuel).
    { subst rest. rewrite length_drop. simpl in *. lia. }
    unfold handler.send_chunk. rewrite bool_decide_eq_true_2 by exact Hgot.
    unfold Send. cbn [send_budget sent].
    change (pieces (S fuel) n (b :: data)) with (got :: pieces fuel n rest).
    assert (Hlast : rest = [] ->
              frames ++ [Resp_Chunk got]
              = frames ++ map Resp_Chunk (got :: pieces fuel n rest)).
    { intros ->. now rewrite pieces_nil. }
    assert (Hmore :
              handler.stream_chunks n Hn (io.mkReader rest EOF policy)
                (mkDownloadStreamServer (frames ++ [Resp_Chunk got]) None)
              = (mkDownloadStreamServer
                   (frames ++ map Resp_Chunk (got :: pieces fuel n rest)) None, None)).
    { rewrite IH by exact Hrest. simpl. now rewrite <- app_assoc. }
    destruct policy.
    + exact Hmore.
    + case_bool_decide as Hend; [|exact Hmore]. now rewrite Hlast.
    + case_bool_decide as Hshort; [|exact Hmore].
      rewrite Hlast; [reflexivity|].
      apply length_zero_iff_nil. subst got rest.
      rewrite length_take in Hshort. rewrite length_drop. lia.
Qed.

Lemma pieces_concat (fuel n : nat) (l : list byte) :
  0 < n -> length l <= fuel -> concat (pieces fuel n l) = l.
Proof.
  intros Hn. revert l. induction fuel as [|fuel IH]; intros l Hlen.
  - destruct l; [reflexivity|simpl in Hlen; lia].
  - destruct l as [|b l]; [reflexivity|].
    change (pieces (S fuel) n (b :: l))
      with (take n (b :: l) :: pieces fuel n (drop n (b :: l))).
    simpl concat. rewrite IH; [apply take_drop|].
    rewrite length_drop. simpl in *. lia.
Qed.

Lemma pieces_sizes (fuel n : nat) (l : list byte) :
  0 < n -> Forall (fun c => 0 < length c <= n) (pieces fuel n l).
Proof.
  intros Hn. revert l. induction fuel as [|fuel IH]; intros l; [constructor|].
  destruct l as [|b l]; [constructor|].
  change (pieces (S fuel) n (b :: l))
    with (take n (b :: l) :: pieces fuel n (drop n (b :: l))).
  constructor; [|apply IH]. rewrite length_take. simpl. lia.
Qed.

(** The number [k] of pieces is the ceiling of [length l / n]:
    [n * (k - 1) < length l <= n * k]. *)
Lemma pieces_count (fuel n : nat) (l : list byte) :
  0 < n -> length l <= fuel ->
  length l <= n * length (pieces fuel n l) < length l + n.
Proof.
  intros Hn. revert l. induction fuel as [|fuel IH]; intros l Hlen.
  - destruct l; simpl in *; lia.
  - destruct l as [|b l]; [simpl; lia|].
    change (pieces (S fuel) n (b :: l))
      with (take n (b :: l) :: pieces fuel n (drop n (b :: l))).
    specialize (IH (drop n (b :: l))). rewrite length_drop in IH.
    cbn [length] in *.
    set (k := length (pieces fuel n (drop n (b :: l)))) in *.
    specialize (IH ltac:(lia)).
    destruct (le_lt_dec n (S (length l))) as [Hfull|Hshort].
    + replace (S (length l) - n + n) with (S (length l)) in IH by lia. nia.
    + replace (S (length l) - n) with 0 in IH by lia.
      assert (k = 0) as -> by nia. lia.
Qed.

(** The MinIO adapter opens a stored object when no fault strikes: the
    handle reads the stored bytes and ends cleanly. *)
Lemma Minio_Download_present (m : storage.MinioStorage) (p : string) (w : World)
    (content : list byte) :
  objects w !! (storage.bucketName m, p) = Some content ->
  get_fault (faults w) (storage.bucketName m) p = None ->
  stat_fault (faults w) (storage.bucketName m) p = None ->
  read_fault (faults w) (storage.bucketName m) p = None ->
  storage.Minio.Download m p w
  = (Ok (io.mkReader content EOF (end_policy (faults w))), w).
Proof.
  intros Hobj Hget Hstat Hread.
  unfold storage.Minio.Download, bind, minio.GetObject. rewrite Hget.
  unfold minio.Stat, minio.reader_of; simpl.
  rewrite Hobj, Hstat; simpl. now rewrite Hread, Hobj.
Qed.

Lemma bufferSize_Z : Z.of_nat handler.bufferSize = 32768%Z.
Proof. unfold handler.bufferSize. lia. Qed.

(** With the buffer of [DownloadStream] the pieces number
    [ceil(length l / 32768)]. *)
Lemma pieces_count_Z (l : list byte) :
  Z.of_nat (length (pieces (length l) handler.bufferSize l))
  = ((Z.of_nat (length l) + 32767) `div` 32768)%Z.
Proof.
  pose proof (pieces_count (length l) _ l handler.bufferSize_pos (le_n _)) as Hk.
  pose proof bufferSize_Z as HZ.
  set (k := length (pieces _ _ _)) in *.
  apply Z.div_unique with (r := (Z.of_nat (length l) + 32767 - 32768 * Z.of_nat k)%Z);
    nia.
Qed.

(** What [DownloadStream] sends for an object the store opens and reads
    without fault. *)
Lemma DownloadStream_pieces (m : storage.MinioStorage) (p : string) (w : World)
    (content : list byte) :
  objects w !! (storage.bucketName m, p) = Some content ->
  get_fault (faults w) (storage.bucketName m) p = None ->
  stat_fault (faults w) (storage.bucketName m) p = None ->
  read_fault (faults w) (storage.bucketName m) p = None ->
  handler.DownloadStream (serve m) p (mkDownloadStreamServer [] None) w
  = ((mkDownloadStreamServer
        (Resp_Metadata (mkFileMetadata p 0 "")
         :: map Resp_Chunk (pieces (length content) handler.bufferSize content)) None,
      None), w).
Proof.
  intros Hobj Hget Hstat Hread.
  unfold handler.DownloadStream, bind, service.DownloadFile; simpl.
  rewrite (Minio_Download_present m p w content Hobj Hget Hstat Hread).
  unfold ret; simpl.
  now rewrite (stream_chunks_clean (length content)).
Qed.

(** C3. For an object stored under [p] with content of [L] bytes that the
    store opens and reads without fault, over a transport that takes every
    frame, [DownloadStream] sends one metadata frame naming [p] and then
    chunk frames and nothing else: every chunk frame carries at least one
    and at most 32768 bytes, their payloads concatenated in order are the
    stored bytes, and there are [ceil(L / 32768)] of them.  The call ends
    without error and changes nothing in the world.  This holds however the
    read handle announces its end (with the last bytes, after them, or on
    the first short read), so no empty trailing frame is ever sent. *)
Theorem DownloadStream_chunking (m : storage.MinioStorage) (p : string) (w : World)
    (content : list byte) :
  objects w !! (storage.bucketName m, p) = Some content ->
  0 < length content ->
  get_fault (faults w) (storage.bucketName m) p = None ->
  stat_fault (faults w) (storage.bucketName m) p = None ->
  read_fault (faults w) (storage.bucketName m) p = None ->
  exists chunks,
    handler.DownloadStream (serve m) p (mkDownloadStreamServer [] None) w
    = ((mkDownloadStreamServer
          (Resp_Metadata (mkFileMetadata p 0 "") :: map Resp_Chunk chunks) None,
        None), w) /\
    concat chunks = content /\
    Forall (fun c => 0 < length c /\ (Z.of_nat (length c) <= 32768)%Z) chunks /\
    Z.of_nat (length chunks) = ((Z.of_nat (length content) + 32767) `div` 32768)%Z.
Proof.
  intros Hobj _ Hget Hstat Hread.
  exists (pieces (length content) handler.bufferSize content).
  pose proof handler.bufferSize_pos as Hpos. pose proof bufferSize_Z as HZ.
  split; [|split; [|split]].
  - now apply DownloadStream_pieces.
  - now apply pieces_concat.
  - eapply Forall_impl; [apply (pieces_sizes _ _ _ Hpos)|].
    intros c Hc; simpl in Hc. lia.
  - apply pieces_count_Z.
Qed.

Lemma DownloadStream_chunking_witness :
  let w := (handler.UploadStream demo.h demo.hello_stream demo.world0).2 in
  objects w !! ("media", demo.key0) = Some demo.hello /\
  0 < length demo.hello /\
  exists chunks,
    handler.DownloadStream demo.h demo.key0 demo.fresh_stream w
    = ((mkDownloadStreamServer
          (Resp_Metadata (mkFileMetadata demo.key0 0 "") :: map Resp_Chunk chunks) None,
        None), w) /\
    concat chunks = demo.hello /\
    Forall (fun c => 0 < length c /\ (Z.of_nat (length c) <= 32768)%Z) chunks /\
    Z.of_nat (length chunks) = ((Z.of_nat (length demo.hello) + 32767) `div` 32768)%Z.
Proof.
  split; [reflexivity|]. split; [simpl; lia|].
  apply (DownloadStream_chunking demo.store demo.key0
           (handler.UploadStream demo.h demo.hello_stream demo.world0).2 demo.hello);
    [reflexivity|simpl; lia|reflexivity|reflexivity|reflexivity].
Defined.

(** The example of the specification: 70000 bytes go out in three chunk
    frames. *)
Corollary DownloadStream_70000 (m : storage.MinioStorage) (p : string) (w : World)
    (content : list byte) :
  objects w !! (storage.bucketName m, p) = Some content ->
  get_fault (faults w) (storage.bucketName m) p = None ->
  stat_fault (faults w) (storage.bucketName m) p = None ->
  read_fault (faults w) (storage.bucketName m) p = None ->
  Z.of_nat (length content) = 70000%Z ->
  exists c1 c2 c3,
    (handler.DownloadStream (serve m) p (mkDownloadStreamServer [] None) w).1
    = (mkDownloadStreamServer
         [Resp_Metadata (mkFileMetadata p 0 ""); Resp_Chunk c1; Resp_Chunk c2; Resp_Chunk c3]
         None, None) /\
    c1 ++ c2 ++ c3 = content.
Proof.
  intros Hobj Hget Hstat Hread HL.
  rewrite (DownloadStream_pieces m p w content Hobj Hget Hstat Hread).
  pose proof (pieces_count_Z content) as Hcount.
  pose proof (pieces_concat (length content) _ content handler.bufferSize_pos (le_n _))
    as Hcat.
  rewrite HL in Hcount. change ((70000 + 32767) `div` 32768)%Z with 3%Z in Hcount.
  destruct (pieces _ _ _) as [|c1 [|c2 [|c3 [|c4 chunks]]]]; simpl in Hcount; try lia.
  exists c1, c2, c3. split; [reflexivity|].
  simpl in Hcat. now rewrite app_nil_r in Hcat.
Qed.

(** ** The path policy *)

(** *** The extension *)

Lemma of_list_app (a b : list ascii) :
  GoString.of_list (a ++ b) = GoString.of_list a +:+ GoString.of_list b.
Proof.
  apply gostring_to_list_inj.
  now rewrite gostring_to_list_app, !gostring_to_of_list.
Qed.

Lemma last_element_whole (u : string) : no_separator u -> last_element u = u.
Proof.
  unfold no_separator. destruct u as [|c r]; [reflexivity|]. simpl.
  intros H. apply orb_false_elim in H as [Hc Hr]. now rewrite Hr, Hc.
Qed.

Lemma last_element_app (s u : string) :
  no_separator u -> last_element (s +:+ u) = last_element s +:+ u.
Proof.
  intros Hu. induction s as [|c s IH]; [now apply last_element_whole|].
  rewrite gostring_app_cons. simpl.
  rewrite gostring_to_list_app, existsb_app, Hu, orb_false_r.
  destruct (existsb filepath.IsPathSeparator (GoString.to_list s)); [exact IH|].
  now destruct (filepath.IsPathSeparator c).
Qed.

Lemma last_element_separator (s : string) : last_element (s +:+ "/") = "".
Proof.
  induction s as [|c s IH]; [reflexivity|].
  rewrite gostring_app_cons. simpl.
  rewrite gostring_to_list_app, existsb_app. simpl. now rewrite orb_true_r.
Qed.

Lemma from_last_dot_none (t : string) : no_dot t -> from_last_dot t = "".
Proof.
  unfold no_dot. induction t as [|c t IH]; [reflexivity|]. simpl.
  intros H. apply orb_false_elim in H as [Hc Ht]. now rewrite (IH Ht), Hc.
Qed.

Lemma from_last_dot_app (s t : string) :
  no_dot t -> from_last_dot (s +:+ String "." t) = String "." t.
Proof.
  intros Ht. induction s as [|c s IH].
  - simpl. now rewrite (from_last_dot_none t Ht).
  - rewrite gostring_app_cons. simpl. now rewrite IH.
Qed.

Lemma Ext_loop_spec (pre tail : list ascii) :
  no_dot (GoString.of_list tail) -> no_separator (GoString.of_list tail) ->
  GoString.of_list (filepath.Ext_loop (rev pre) tail)
  = from_last_dot (last_element (GoString.of_list (pre ++ tail))).
Proof.
  revert tail. induction pre as [|c pre IH] using rev_ind; intros tail Hdot Hsep.
  - simpl. now rewrite (last_element_whole _ Hsep), (from_last_dot_none _ Hdot).
  - rewrite rev_unit. simpl.
    rewrite <- app_assoc, of_list_app. simpl.
    destruct (filepath.IsPathSeparator c) eqn:Hc.
    + apply Ascii.eqb_eq in Hc as ->.
      change (String "/" (GoString.of_list tail)) with ("/" +:+ GoString.of_list tail).
      rewrite <- gostring_app_assoc, (last_element_app _ _ Hsep), last_element_separator.
      change ("" +:+ GoString.of_list tail) with (GoString.of_list tail).
      now rewrite (from_last_dot_none _ Hdot).
    + destruct (Ascii.eqb c ".") eqn:Hd.
      * apply Ascii.eqb_eq in Hd as ->.
        rewrite last_element_app.
        -- now rewrite (from_last_dot_app _ _ Hdot).
        -- unfold no_separator in *. simpl. now rewrite Hsep.
      * change (String c (GoString.of_list tail)) with (GoString.of_list (c :: tail)).
        rewrite <- of_list_app. apply IH.
        -- unfold no_dot in *. simpl. rewrite gostring_to_of_list in *.
           simpl. now rewrite Hd, Hdot.
        -- unfold no_separator in *. simpl. rewrite gostring_to_of_list in *.
           simpl. now rewrite Hc, Hsep.
Qed.

(** [filepath.Ext] gives the part of the final path element from its last
    dot on. *)
Lemma Ext_spec (f : string) : filepath.Ext f = from_last_dot (last_element f).
Proof.
  unfold filepath.Ext.
  rewrite (Ext_loop_spec (GoString.to_list f) []); [|reflexivity|reflexivity].
  now rewrite app_nil_r, gostring_of_to_list.
Qed.

(** For a name without separator that is the part of the name from its last
    dot on. *)
Lemma Ext_plain_name (f : string) : no_separator f -> filepath.Ext f = from_last_dot f.
Proof. intros H. now rewrite Ext_spec, (last_element_whole f H). Qed.

(** *** The date *)

Lemma is_digit_digit (d : nat) : d < 10 -> time.is_digit (time.digit d) = true.
Proof.
  intros Hd. unfold time.is_digit, time.digit.
  rewrite nat_ascii_embedding by lia.
  apply andb_true_intro; split; apply Nat.leb_le; lia.
Qed.

Lemma utoa_loop_step (fuel u : nat) (acc : list ascii) :
  time.utoa_loop (S fuel) u acc
  = if u <? 10 then time.digit (u `mod` 10) :: acc
    else time.utoa_loop fuel (u `div` 10) (time.digit (u `mod` 10) :: acc).
Proof. reflexivity. Qed.

(** The digits of a number below [10 ^ k]: at least one, at most [k], all
    decimal. *)
Lemma utoa_loop_digits (fuel u k : nat) (acc : list ascii) :
  u < fuel -> 0 < k -> u < 10 ^ k ->
  Forall (fun c => time.is_digit c = true) acc ->
  Forall (fun c => time.is_digit c = true) (time.utoa_loop fuel u acc) /\
  S (length acc) <= length (time.utoa_loop fuel u acc) <= length acc + k.
Proof.
  revert u k acc. induction fuel as [|fuel IH]; intros u k acc Hfuel Hpos Hk Hacc; [lia|].
  rewrite utoa_loop_step.
  assert (Hd : time.is_digit (time.digit (u `mod` 10)) = true).
  { apply is_digit_digit. apply Nat.mod_upper_bound. lia. }
  destruct k as [|k]; [lia|].
  destruct (Nat.ltb_spec u 10) as [Hlt|Hge].
  - split; [now constructor|]. simpl. lia.
  - assert (Hdiv : u `div` 10 < 10 ^ k).
    { apply Nat.Div0.div_lt_upper_bound. rewrite Nat.pow_succ_r' in Hk. lia. }
    assert (Hk' : 0 < k).
    { destruct k; [|lia]. simpl in Hk. lia. }
    destruct (IH (u `div` 10) k (time.digit (u `mod` 10) :: acc)) as [Hall Hlen].
    + assert (u `div` 10 < u) by (apply Nat.div_lt; lia). lia.
    + exact Hk'.
    + exact Hdiv.
    + now constructor.
    + split; [exact Hall|]. cbn [length] in Hlen. lia.
Qed.

Lemma appendInt_digits (x width : nat) :
  0 < width -> x < 10 ^ width ->
  exists ds, time.appendInt x width = GoString.of_list ds /\
             length ds = width /\
             Forall (fun c => time.is_digit c = true) ds.
Proof.
  intros Hw Hx. unfold time.appendInt.
  destruct (utoa_loop_digits (S x) x width [] (Nat.lt_succ_diag_r x) Hw Hx (Forall_nil_2 _))
    as [Hall Hlen].
  set (ds := time.utoa_loop (S x) x []) in *. simpl in Hlen.
  exists (replicate (width - length ds) "0"%char ++ ds). split; [reflexivity|]. split.
  - rewrite length_app, length_replicate. lia.
  - apply Forall_app; split; [|exact Hall].
    apply Forall_replicate. reflexivity.
Qed.

Lemma Format_date_shape (t : time.Time) :
  time.civil t -> time.is_YYYY_MM_DD (time.Format_date t) = true.
Proof.
  intros (Hy & Hm & Hd). unfold time.Format_date.
  destruct (appendInt_digits (time.Year t) 4) as (ys & -> & Hly & Hys); [lia|exact Hy|].
  destruct (appendInt_digits (time.Month t) 2) as (ms & -> & Hlm & Hms); [lia|simpl; lia|].
  destruct (appendInt_digits (time.Day t) 2) as (ds & -> & Hld & Hds); [lia|simpl; lia|].
  destruct ys as [|y1 [|y2 [|y3 [|y4 [|]]]]]; try discriminate Hly.
  destruct ms as [|m1 [|m2 [|]]]; try discriminate Hlm.
  destruct ds as [|d1 [|d2 [|]]]; try discriminate Hld.
  repeat match goal with H : Forall _ (_ :: _) |- _ => apply Forall_cons in H as [? H] end.
  unfold time.is_YYYY_MM_DD. simpl.
  repeat match goal with H : time.is_digit _ = true |- _ => rewrite H; clear H end.
  reflexivity.
Qed.

(** *** The identifier *)

Lemma is_hex_high (b : byte) :
  uuid.is_hex (uuid.hex_digit (N.shiftr (Byte.to_N b) 4)) = true.
Proof. destruct b; reflexivity. Qed.

Lemma is_hex_low (b : byte) :
  uuid.is_hex (uuid.hex_digit (N.land (Byte.to_N b) 15)) = true.
Proof. destruct b; reflexivity. Qed.

Lemma uuid_String_canonical (u : uuid.UUID) : uuid.is_canonical (uuid.String u) = true.
Proof.
  unfold uuid.UUID in u. inv_vec u; intros.
  unfold uuid.is_canonical, uuid.String. rewrite gostring_to_of_list.
  unfold uuid.encodeHex, uuid.slice, uuid.hex_Encode.
  cbn [vec_to_list take drop flat_map app Nat.sub].
  repeat match goal with
         | |- context [uuid.hex_digit (N.shiftr (Byte.to_N ?b) 4)] =>
             generalize (is_hex_high b);
             generalize (uuid.hex_digit (N.shiftr (Byte.to_N b) 4)); intros ? ?
         | |- context [uuid.hex_digit (N.land (Byte.to_N ?b) 15)] =>
             generalize (is_hex_low b);
             generalize (uuid.hex_digit (N.land (Byte.to_N b) 15)); intros ? ?
         end.
  cbn -[uuid.is_hex].
  repeat match goal with H : uuid.is_hex _ = true |- _ => rewrite H; clear H end.
  reflexivity.
Qed.

Lemma uuid_String_length (u : uuid.UUID) : String.length (uuid.String u) = 36.
Proof.
  pose proof (uuid_String_canonical u) as H. unfold uuid.is_canonical in H.
  apply andb_prop in H as [H _]. apply Nat.eqb_eq in H.
  now rewrite <- gostring_length_to_list.
Qed.

Lemma byte_of_hex_digits (b : byte) :
  byte_of_hex (uuid.hex_digit (N.shiftr (Byte.to_N b) 4))
              (uuid.hex_digit (N.land (Byte.to_N b) 15)) = Some b.
Proof. destruct b; reflexivity. Qed.

Lemma hex_digits_inj (a b : byte) :
  uuid.hex_digit (N.shiftr (Byte.to_N a) 4) = uuid.hex_digit (N.shiftr (Byte.to_N b) 4) ->
  uuid.hex_digit (N.land (Byte.to_N a) 15) = uuid.hex_digit (N.land (Byte.to_N b) 15) ->
  a = b.
Proof.
  intros Hh Hl. pose proof (byte_of_hex_digits a) as Ha.
  rewrite Hh, Hl, byte_of_hex_digits in Ha. congruence.
Qed.

(** Different identifiers have different canonical forms. *)
Lemma uuid_String_inj (u v : uuid.UUID) : uuid.String u = uuid.String v -> u = v.
Proof.
  unfold uuid.UUID in u, v. inv_vec u; inv_vec v; intros.
  match goal with H : uuid.String _ = uuid.String _ |- _ =>
    apply (f_equal GoString.to_list) in H; unfold uuid.String in H;
    rewrite !gostring_to_of_list in H;
    unfold uuid.encodeHex, uuid.slice, uuid.hex_Encode in H;
    cbn [vec_to_list take drop flat_map app Nat.sub] in H;
    injection H; clear H; intros
  end.
  repeat match goal with
         | Hh : uuid.hex_digit (N.shiftr (Byte.to_N ?a) 4)
                = uuid.hex_digit (N.shiftr (Byte.to_N ?b) 4),
           Hl : uuid.hex_digit (N.land (Byte.to_N ?a) 15)
                = uuid.hex_digit (N.land (Byte.to_N ?b) 15) |- _ =>
             pose proof (hex_digits_inj a b Hh Hl); clear Hh Hl; subst a
         end.
  reflexivity.
Qed.

(** *** Successive uploads *)

Lemma Minio_Upload_world (m : storage.MinioStorage) (fileName : string) (size : Z)
    (reader : io.Reader) (contentType : string) (w : World) :
  let key := next_key fileName w in
  exists r objs,
    storage.Minio.Upload m fileName size reader contentType w
    = (r, after_upload w
            (mkPutCall (storage.bucketName m) key (io.rd_data reader)
                       (io.rd_end reader) size contentType) objs) /\
    (r = Ok key \/ exists e, r = Fail e).
Proof.
  intros key. rewrite Minio_Upload_run. fold key.
  destruct (io.rd_end reader) as [|msg].
  - destruct (put_fault _ _) as [msg|]; do 2 eexists; split; eauto.
  - do 2 eexists; split; eauto.
Qed.

Lemma uploads_run (m : storage.MinioStorage) (fileName : string)
    (calls : list (Z * io.Reader * string)) (w : World) :
  exists new,
    puts (uploads m fileName calls w).2 = puts w ++ new /\
    map put_key new = map (key_at fileName w) (seq 0 (length calls)) /\
    Forall (fun r => match r with
                     | Ok key => key ∈ map put_key new
                     | Fail _ => True
                     end) (uploads m fileName calls w).1.
Proof.
  revert w. induction calls as [|[[size reader] contentType] calls IH]; intros w.
  - exists []. simpl. rewrite app_nil_r. repeat split; constructor.
  - destruct (Minio_Upload_world m fileName size reader contentType w)
      as (r & objs & Hup & Hr).
    set (call := mkPutCall _ _ _ _ _ _) in Hup. set (w1 := after_upload w call objs) in Hup.
    destruct (IH w1) as (new & Hputs & Hkeys & Hres).
    assert (Hrun : uploads m fileName ((size, reader, contentType) :: calls) w
                   = (r :: (uploads m fileName calls w1).1, (uploads m fileName calls w1).2)).
    { cbn [uploads]. unfold bind. rewrite Hup.
      now destruct (uploads m fileName calls w1). }
    rewrite Hrun. cbn [fst snd].
    change (puts w1) with (puts w ++ [call]) in Hputs.
    exists (call :: new). split; [|split].
    + rewrite Hputs. now rewrite <- app_assoc.
    + cbn [map length seq]. f_equal.
      * unfold key_at, call, next_key; simpl. now rewrite !Nat.add_0_r.
      * rewrite Hkeys, <- seq_shift, map_map. apply map_ext. intros i.
        unfold key_at, w1; simpl. now rewrite !Nat.add_succ_r.
    + constructor.
      * destruct Hr as [->|[e ->]]; [|exact I]. apply list_elem_of_here.
      * eapply Forall_impl; [exact Hres|]. intros [key|e]; simpl; [|auto].
        apply list_elem_of_further.
Qed.

(** Two keys made for the same file name are equal only if the same
    identifier went into them, whatever the dates. *)
Lemma key_at_inj (fileName : string) (w : World) (i j : nat) :
  key_at fileName w i = key_at fileName w j ->
  uuid_source w (uuid_drawn w + i) = uuid_source w (uuid_drawn w + j).
Proof.
  unfold key_at. intros H.
  rewrite <- !(gostring_app_assoc _ "/"), <- !(gostring_app_assoc _ _ (filepath.Ext _)) in H.
  apply gostring_app_inj_tail_length in H as [H _]; [|reflexivity].
  apply gostring_app_inj_tail_length in H as [_ H]; [|now rewrite !uuid_String_length].
  now apply uuid_String_inj.
Qed.

(** C7. [N] successive uploads under one file name, whatever their
    contents, announced sizes and content types and whenever they happen,
    hand the object store [N] keys, pairwise distinct (and every path an
    upload returns is one of them), provided the [N] identifiers drawn for
    them are pairwise distinct. *)
Theorem upload_keys_distinct (m : storage.MinioStorage) (fileName : string)
    (calls : list (Z * io.Reader * string)) (w : World) :
  NoDup (map (uuid_source w) (seq (uuid_drawn w) (length calls))) ->
  let run := uploads m fileName calls w in
  let keys := keys_written w run.2 in
  length keys = length calls /\
  NoDup keys /\
  Forall (fun r => match r with Ok key => key ∈ keys | Fail _ => True end) run.1.
Proof.
  intros Hfresh run keys.
  destruct (uploads_run m fileName calls w) as (new & Hputs & Hkeys & Hres).
  assert (Hk : keys = map (key_at fileName w) (seq 0 (length calls))).
  { unfold keys, keys_written, run. rewrite Hputs, drop_app_length. exact Hkeys. }
  fold run in Hres. rewrite Hkeys, <- Hk in Hres.
  split; [|split]; [| |exact Hres].
  - now rewrite Hk, length_map, length_seq.
  - rewrite Hk. apply (NoDup_fmap_2_strong (key_at fileName w)); [|apply NoDup_seq].
    intros i j Hi Hj Heq. apply elem_of_seq in Hi, Hj.
    apply key_at_inj in Heq.
    apply (proj1 (NoDup_alt _) Hfresh i j (uuid_source w (uuid_drawn w + i)));
      change (map (uuid_source w)) with (fmap (M := list) (uuid_source w));
      rewrite list_lookup_fmap, lookup_seq_lt by lia; [reflexivity|now rewrite Heq].
Qed.

Lemma upload_keys_distinct_witness :
  NoDup (map (uuid_source demo.world0)
             (seq (uuid_drawn demo.world0) (length demo.three_calls))) /\
  let run := uploads demo.store "a.txt" demo.three_calls demo.world0 in
  let keys := keys_written demo.world0 run.2 in
  length keys = length demo.three_calls /\
  NoDup keys /\
  Forall (fun r => match r with Ok key => key ∈ keys | Fail _ => True end) run.1.
Proof.
  split; [apply (bool_decide_unpack _); vm_compute; exact I|].
  apply (upload_keys_distinct demo.store "a.txt" demo.three_calls demo.world0).
  apply (bool_decide_unpack _); vm_compute; exact I.
Defined.

Example three_uploads_keys :
  keys_written demo.world0 (uploads demo.store "a.txt" demo.three_calls demo.world0).2
  = ["2024/01/01/00000000-0000-0000-0000-000000000000.txt";
     "2024/01/01/00000000-0000-0000-0000-000000000001.txt";
     "2024/01/01/00000000-0000-0000-0000-000000000002.txt"].
Proof. reflexivity. Qed.

(** *** The format of a generated key *)

(** C4 does not hold as stated: for the file name [a.b/c] the extension
    would have to be [.b/c], the part from the last dot on, but the key
    generated has no extension, the last dot being in front of the last
    separator. *)
Lemma upload_key_format_counterexample :
  let run := storage.Minio.Upload demo.store "a.b/c" 0 (io.NewReader None) ""
                                  demo.world0 in
  from_last_dot "a.b/c" = ".b/c" /\
  run.1 = Ok "2024/01/01/00000000-0000-0000-0000-000000000000" /\
  run.1 <> Ok (time.Format_date (demo.noon 0) +:+ "/" +:+ uuid.String (demo.ids 0)
               +:+ from_last_dot "a.b/c").
Proof.
  intros run. split; [reflexivity|]. split; [reflexivity|].
  intros H. vm_compute in H. discriminate H.
Qed.

(** C4, amended. An upload of a file named [f] hands the object store one
    request, under the key [date/id ext] (which is also the path it returns
    when the store accepts): [date] is the reading of the clock at the
    call, formatted [YYYY/MM/DD]; [id] is the identifier drawn for this
    call, in canonical form; [ext] is what [filepath.Ext] gives for [f],
    namely the part of the final path element of [f] (what follows its last
    ['/']) from the last ['.'] of that element on, empty if that element
    has no dot.  So the key for [report.pdf] ends in [.pdf] and the key for
    [noext] ends with the identifier. *)
Theorem upload_key_format (m : storage.MinioStorage) (f : string) (size : Z)
    (reader : io.Reader) (contentType : string) (w : World) :
  time.civil (clock w (clock_reads w)) ->
  let run := storage.Minio.Upload m f size reader contentType w in
  exists date id ext key,
    key = date +:+ "/" +:+ id +:+ ext /\
    keys_written w run.2 = [key] /\
    (run.1 = Ok key \/ exists e, run.1 = Fail e) /\
    date = time.Format_date (clock w (clock_reads w)) /\
    time.is_YYYY_MM_DD date = true /\
    id = uuid.String (uuid_source w (uuid_drawn w)) /\
    uuid_drawn run.2 = S (uuid_drawn w) /\
    uuid.is_canonical id = true /\
    ext = filepath.Ext f /\
    ext = from_last_dot (last_element f) /\
    filepath.Ext "report.pdf" = ".pdf" /\
    filepath.Ext "noext" = "".
Proof.
  intros Hcivil run.
  destruct (Minio_Upload_world m f size reader contentType w) as (r & objs & Hrun & Hr).
  exists (time.Format_date (clock w (clock_reads w))),
         (uuid.String (uuid_source w (uuid_drawn w))),
         (filepath.Ext f), (next_key f w).
  subst run. rewrite Hrun. cbn [fst snd].
  repeat split; try reflexivity.
  - unfold keys_written. cbn [puts after_upload]. now rewrite drop_app_length.
  - exact Hr.
  - now apply Format_date_shape.
  - apply uuid_String_canonical.
  - apply Ext_spec.
Qed.

Lemma upload_key_format_witness :
  time.civil (clock demo.world0 (clock_reads demo.world0)) /\
  let run := storage.Minio.Upload demo.store "report.pdf" 5 (io.NewReader (Some demo.hello))
                                  "application/pdf" demo.world0 in
  exists date id ext key,
    key = date +:+ "/" +:+ id +:+ ext /\
    keys_written demo.world0 run.2 = [key] /\
    (run.1 = Ok key \/ exists e, run.1 = Fail e) /\
    date = time.Format_date (clock demo.world0 (clock_reads demo.world0)) /\
    time.is_YYYY_MM_DD date = true /\
    id = uuid.String (uuid_source demo.world0 (uuid_drawn demo.world0)) /\
    uuid_drawn run.2 = S (uuid_drawn demo.world0) /\
    uuid.is_canonical id = true /\
    ext = filepath.Ext "report.pdf" /\
    ext = from_last_dot (last_element "report.pdf") /\
    filepath.Ext "report.pdf" = ".pdf" /\
    filepath.Ext "noext" = "".
Proof.
  split; [unfold time.civil; simpl; lia|].
  apply (upload_key_format demo.store "report.pdf" 5 (io.NewReader (Some demo.hello))
           "application/pdf" demo.world0).
  unfold time.civil; simpl; lia.
Defined.

Example upload_key_report :
  (storage.Minio.Upload demo.store "report.pdf" 5 (io.NewReader (Some demo.hello))
                        "application/pdf" demo.world0).1
  = Ok "2024/01/01/00000000-0000-0000-0000-000000000000.pdf".
Proof. reflexivity. Qed.

Example upload_key_noext :
  (storage.Minio.Upload demo.store "noext" 5 (io.NewReader (Some demo.hello))
                        "" demo.world0).1
  = Ok "2024/01/01/00000000-0000-0000-0000-000000000000".
Proof. reflexivity. Qed.

(** The size announced in the metadata frame is advisory: the answer counts
    what was sent. *)
Example UploadStream_advisory_size :
  (handler.UploadStream demo.h
     (chunked_upload (mkFileMetadata "a.txt" 0 "text/plain")
                     [[x68; x65]; [x6c; x6c; x6f]] None)
     demo.world0).1
  = Ok (mkUploadResponse demo.key0
          "https://cdn.example.com/media/2024/01/01/00000000-0000-0000-0000-000000000000.txt"
          5 "2024-01-01T12:00:01Z").
Proof. reflexivity. Qed.

(** * Further properties of the handlers and of the adapter *)

(** ** Whole-body upload and download *)

(** X1. What [Upload] stores, [Download] returns: when the store accepts
    the write and opens and reads the object without fault, the upload
    answers with the generated key, its URL and the length of the content,
    and a download of the path answered returns the content byte for byte,
    with its length, under the path as file name and the generic content
    type (the name and type given at upload are not kept). *)
Theorem Upload_then_Download (m : storage.MinioStorage) (req : UploadRequest) (w : World) :
  let key := next_key (up_FileName req) w in
  let content := slice_data (up_Content req) in
  put_fault (faults w)
    (mkPutCall (storage.bucketName m) key content EOF (int64.of_len content)
               (up_ContentType req)) = None ->
  get_fault (faults w) (storage.bucketName m) key = None ->
  stat_fault (faults w) (storage.bucketName m) key = None ->
  read_fault (faults w) (storage.bucketName m) key = None ->
  exists at_ w1,
    handler.Upload (serve m) req w
      = (Ok (mkUploadResponse key (storage.Minio.GetURL m key) (int64.of_len content) at_),
         w1) /\
    handler.Download (serve m) key w1
      = (Ok (mkDownloadResponse key content "application/octet-stream"
                                (int64.of_len content)), w1).
Proof.
  intros key content Hput Hget Hstat Hread.
  unfold handler.Upload, bind, service.UploadFile; simpl.
  rewrite Minio_Upload_run; simpl. fold key. fold content. rewrite Hput.
  unfold ret; simpl. do 2 eexists. split; [reflexivity|].
  unfold handler.Download, bind, service.DownloadFile; simpl.
  erewrite Minio_Download_present; [reflexivity| |exact Hget|exact Hstat|exact Hread].
  simpl. apply lookup_insert_eq.
Qed.

Lemma Upload_then_Download_witness :
  put_fault (faults demo.world0)
    (mkPutCall "media" demo.key0 demo.hello EOF 5 "text/plain") = None /\
  exists at_ w1,
    handler.Upload demo.h (mkUploadRequest "a.txt" (Some demo.hello) "text/plain") demo.world0
      = (Ok (mkUploadResponse demo.key0
               "https://cdn.example.com/media/2024/01/01/00000000-0000-0000-0000-000000000000.txt"
               5 at_), w1) /\
    handler.Download demo.h demo.key0 w1
      = (Ok (mkDownloadResponse demo.key0 demo.hello "application/octet-stream" 5), w1).
Proof.
  split; [reflexivity|].
  apply (Upload_then_Download demo.store
           (mkUploadRequest "a.txt" (Some demo.hello) "text/plain") demo.world0);
    reflexivity.
Defined.

(** X2. An upload changes the object store at the generated key and
    nowhere else, and not at all when it fails: whatever the store decides,
    the objects under every other key, in every bucket, are as before; a
    failure is reported as [Internal]. *)
Theorem Upload_touches_its_key_only (m : storage.MinioStorage) (req : UploadRequest)
    (w : World) :
  let key := next_key (up_FileName req) w in
  let run := handler.Upload (serve m) req w in
  delete (storage.bucketName m, key) (objects run.2)
    = delete (storage.bucketName m, key) (objects w) /\
  match run.1 with
  | Ok resp =>
      FilePath resp = key /\
      objects run.2 !! (storage.bucketName m, key) = Some (slice_data (up_Content req))
  | Fail st => code st = codes.Internal /\ objects run.2 = objects w
  end.
Proof.
  intros key run. subst run.
  unfold handler.Upload, bind, service.UploadFile; simpl.
  rewrite Minio_Upload_run; simpl. fold key.
  destruct (put_fault _ _) as [msg|]; simpl.
  - repeat split.
  - split; [apply delete_insert_eq|]. split; [reflexivity|apply lookup_insert_eq].
Qed.

(** ** The upload bridge: failures *)

(** The receive loop over chunk frames followed by anything. *)
Lemma receive_chunks_chunks_then (cs : list (list byte))
    (rest : list (UploadStreamRequest + error)) (data : list byte) (n : Z) :
  handler.receive_chunks (map (fun c => inl (Req_Chunk (Some c))) cs ++ rest)
                         (io.mkPipe data None None) (int64.wrap n)
  = handler.receive_chunks rest (io.mkPipe (data ++ concat cs) None None)
                           (int64.wrap (n + Z.of_nat (length (concat cs)))).
Proof.
  revert data n. induction cs as [|c cs IH]; intros data n; simpl.
  - now rewrite app_nil_r, Z.add_0_r.
  - rewrite int64_add_wrap, IH, <- app_assoc, length_app.
    replace (n + Z.of_nat (length c) + Z.of_nat (length (concat cs)))%Z
      with (n + Z.of_nat (length c + length (concat cs)))%Z by lia.
    reflexivity.
Qed.

(** X3. A receive error in the middle of a streamed upload ends the call
    with [Internal] carrying that error.  The pipe is closed with the
    error, so the storage write, which has seen the chunks received before
    it in order, is aborted by it and stores nothing; the frames after the
    error are never looked at. *)
Theorem UploadStream_receive_error (m : storage.MinioStorage) (md : FileMetadata)
    (cs : list (list byte)) (msg : string) (rest : list (UploadStreamRequest + error))
    (sendclose : option Status) (w : World) :
  handler.UploadStream (serve m)
    (mkUploadStreamServer
       (inl (Req_Metadata md)
        :: map (fun c => inl (Req_Chunk (Some c))) cs ++ inr (Err msg) :: rest)
       sendclose) w
  = (Fail (mkStatus codes.Internal ("failed to receive chunk: " +:+ msg)),
     after_upload w
       (mkPutCall (storage.bucketName m) (next_key (FileName md) w) (concat cs)
                  (Err msg) (FileSize md) (ContentType md))
       (objects w)).
Proof.
  unfold handler.UploadStream, Recv; simpl.
  change 0%Z with (int64.wrap 0) at 1.
  unfold io.Pipe. rewrite receive_chunks_chunks_then. simpl.
  unfold bind, service.UploadStream; simpl. reflexivity.
Qed.

(** The whole run of a streamed upload of chunk frames. *)
Lemma UploadStream_chunked_run (m : storage.MinioStorage) (md : FileMetadata)
    (cs : list (list byte)) (sendclose : option Status) (w : World) :
  let key := next_key (FileName md) w in
  let call := mkPutCall (storage.bucketName m) key (concat cs) EOF
                        (FileSize md) (ContentType md) in
  let stored :=
    mkWorld (<[(storage.bucketName m, key) := concat cs]> (objects w)) (faults w)
            (uuid_source w) (S (uuid_drawn w)) (clock w) (S (S (clock_reads w)))
            (puts w ++ [call]) in
  handler.UploadStream (serve m) (chunked_upload md cs sendclose) w
  = match put_fault (faults w) call with
    | Some msg =>
        (Fail (mkStatus codes.Internal
                 ("failed to upload file: failed to upload file: " +:+ msg)),
         after_upload w call (objects w))
    | None =>
        match sendclose with
        | Some st => (Fail st, stored)
        | None =>
            (Ok (mkUploadResponse key (storage.Minio.GetURL m key)
                   (int64.wrap (Z.of_nat (length (concat cs))))
                   (time.Format_RFC3339 (clock w (S (clock_reads w))))), stored)
        end
    end.
Proof.
  intros key call stored.
  unfold handler.UploadStream, chunked_upload, Recv; simpl.
  change 0%Z with (int64.wrap 0) at 1.
  unfold io.Pipe. rewrite receive_chunks_chunks. simpl.
  unfold bind, service.UploadStream; simpl.
  rewrite Minio_Upload_run; simpl. fold key. fold call.
  destruct (put_fault (faults w) call) as [msg|]; simpl; [reflexivity|].
  destruct sendclose; reflexivity.
Qed.

(** X4. When the storage write fails, a streamed upload never answers with
    success, even though every frame was received and the pipe was closed
    cleanly: the call ends with [Internal] and the objects are as before. *)
Theorem UploadStream_storage_failure (m : storage.MinioStorage) (md : FileMetadata)
    (cs : list (list byte)) (sendclose : option Status) (msg : string) (w : World) :
  put_fault (faults w)
    (mkPutCall (storage.bucketName m) (next_key (FileName md) w) (concat cs) EOF
               (FileSize md) (ContentType md)) = Some msg ->
  let run := handler.UploadStream (serve m) (chunked_upload md cs sendclose) w in
  run.1 = Fail (mkStatus codes.Internal
                  ("failed to upload file: failed to upload file: " +:+ msg)) /\
  objects run.2 = objects w.
Proof.
  intros Hput run. subst run.
  rewrite UploadStream_chunked_run, Hput. split; reflexivity.
Qed.

Lemma UploadStream_storage_failure_witness :
  put_fault (faults demo2.world_refusing)
    (mkPutCall "media" demo.key0 demo.hello EOF 5 "text/plain") = Some "Access Denied." /\
  let run := handler.UploadStream demo.h demo.hello_stream demo2.world_refusing in
  run.1 = Fail (mkStatus codes.Internal
                  "failed to upload file: failed to upload file: Access Denied.") /\
  objects run.2 = ∅.
Proof.
  split; [reflexivity|].
  apply (UploadStream_storage_failure demo.store demo.meta [[x68; x65]; [x6c; x6c; x6f]]
           None "Access Denied." demo2.world_refusing).
  reflexivity.
Defined.

(** X5. When the answer of a streamed upload cannot be sent, the call
    returns the error of the transport, and the object, already written,
    stays stored: the handler does not undo the write. *)
Theorem UploadStream_answer_lost (m : storage.MinioStorage) (md : FileMetadata)
    (cs : list (list byte)) (st : Status) (w : World) :
  let key := next_key (FileName md) w in
  put_fault (faults w)
    (mkPutCall (storage.bucketName m) key (concat cs) EOF
               (FileSize md) (ContentType md)) = None ->
  let run := handler.UploadStream (serve m) (chunked_upload md cs (Some st)) w in
  run.1 = Fail st /\
  objects run.2 !! (storage.bucketName m, key) = Some (concat cs).
Proof.
  intros key Hput run. subst run.
  rewrite UploadStream_chunked_run. fold key. rewrite Hput.
  split; [reflexivity|apply lookup_insert_eq].
Qed.

Lemma UploadStream_answer_lost_witness :
  put_fault (faults demo.world0)
    (mkPutCall "media" demo.key0 demo.hello EOF 5 "text/plain") = None /\
  let run := handler.UploadStream demo.h
               (chunked_upload demo.meta [[x68; x65]; [x6c; x6c; x6f]]
                               (Some (mkStatus codes.Internal "transport is closing")))
               demo.world0 in
  run.1 = Fail (mkStatus codes.Internal "transport is closing") /\
  objects run.2 !! ("media", demo.key0) = Some demo.hello.
Proof.
  split; [reflexivity|].
  apply (UploadStream_answer_lost demo.store demo.meta [[x68; x65]; [x6c; x6c; x6f]]
           (mkStatus codes.Internal "transport is closing") demo.world0).
  reflexivity.
Defined.

(** X6. Behind the MinIO adapter, when the store accepts the write (its
    [PutObject] has then read the body to its end and stored the bytes
    read), a streamed upload depends on its chunk frames only through the
    bytes they carry together: two clients that cut the same bytes into
    chunks differently (empty chunks included) get the same answer, and
    leave the same world with the same call to the store on record.  (A
    storage that looked at the single reads of the pipe could tell the two
    apart, each write of the handler being one read of the pipe; and a
    store that gave up before the end of the body would leave the handler
    in a write, which is not modelled.) *)
Theorem UploadStream_rechunk (m : storage.MinioStorage) (md : FileMetadata)
    (cs1 cs2 : list (list byte)) (sendclose : option Status) (w : World) :
  concat cs1 = concat cs2 ->
  put_fault (faults w)
    (mkPutCall (storage.bucketName m) (next_key (FileName md) w) (concat cs1) EOF
               (FileSize md) (ContentType md)) = None ->
  handler.UploadStream (serve m) (chunked_upload md cs1 sendclose) w
  = handler.UploadStream (serve m) (chunked_upload md cs2 sendclose) w.
Proof.
  intros Hcat Hput. rewrite !UploadStream_chunked_run. now rewrite <- Hcat, Hput.
Qed.

Lemma UploadStream_rechunk_witness :
  concat [[x68; x65]; [x6c; x6c; x6f]] = concat [[x68]; []; [x65; x6c; x6c; x6f]] /\
  put_fault (faults demo.world0)
    (mkPutCall (storage.bucketName demo.store) (next_key (FileName demo.meta) demo.world0)
               (concat [[x68; x65]; [x6c; x6c; x6f]]) EOF
               (FileSize demo.meta) (ContentType demo.meta)) = None /\
  handler.UploadStream demo.h
    (chunked_upload demo.meta [[x68; x65]; [x6c; x6c; x6f]] None) demo.world0
  = handler.UploadStream demo.h
      (chunked_upload demo.meta [[x68]; []; [x65; x6c; x6c; x6f]] None) demo.world0.
Proof.
  split; [reflexivity|]. split; [reflexivity|].
  apply (UploadStream_rechunk demo.store demo.meta [[x68; x65]; [x6c; x6c; x6f]]
           [[x68]; []; [x65; x6c; x6c; x6f]] None demo.world0); reflexivity.
Defined.

(** ** The download bridge: failures *)

(** Over a transport that takes every frame the chunk loop sends every
    piece of what the reader yields, also when the reader ends with an
    error, which is then reported. *)
Lemma stream_chunks_to_the_end (fuel n : nat) (Hn : 0 < n) (data : list byte)
    (e : error) (policy : io.EndPolicy) (frames : list DownloadStreamResponse) :
  length data <= fuel ->
  handler.stream_chunks n Hn (io.mkReader data e policy)
                        (mkDownloadStreamServer frames None)
  = (mkDownloadStreamServer (frames ++ map Resp_Chunk (pieces fuel n data)) None,
     match e with
     | EOF => None
     | Err _ => Some (status_Errorf codes.Internal "failed to read file: " e)
     end).
Proof.
  revert data frames. induction fuel as [|fuel IH]; intros data frames Hlen.
  - destruct data; [|simpl in Hlen; lia].
    rewrite stream_chunks_unfold. simpl. rewrite app_nil_r. now destruct e.
  - rewrite stream_chunks_unfold. destruct data as [|b data].
    { simpl. rewrite app_nil_r. now destruct e. }
    unfold io.Read. cbn [io.rd_data io.rd_end io.rd_policy].
    set (got := take n (b :: data)). set (rest := drop n (b :: data)).
    assert (Hgot : 0 < length got).
    { subst got. rewrite length_take. simpl. lia. }
    assert (Hrest : length rest <= fuel).
    { subst rest. rewrite length_drop. simpl in *. lia. }
    unfold handler.send_chunk. rewrite bool_decide_eq_true_2 by exact Hgot.
    unfold Send. cbn [send_budget sent].
    change (pieces (S fuel) n (b :: data)) with (got :: pieces fuel n rest).
    assert (Hlast : rest = [] ->
              frames ++ [Resp_Chunk got]
              = frames ++ map Resp_Chunk (got :: pieces fuel n rest)).
    { intros ->. now rewrite pieces_nil. }
    assert (Hmore :
              handler.stream_chunks n Hn (io.mkReader rest e policy)
                (mkDownloadStreamServer (frames ++ [Resp_Chunk got]) None)
              = (mkDownloadStreamServer
                   (frames ++ map Resp_Chunk (got :: pieces fuel n rest)) None,
                 match e with
                 | EOF => None
                 | Err _ => Some (status_Errorf codes.Internal "failed to read file: " e)
                 end)).
    { rewrite IH by exact Hrest. simpl. now rewrite <- app_assoc. }
    destruct policy.
    + exact Hmore.
    + case_bool_decide as Hend; [|exact Hmore]. rewrite (Hlast Hend). now destruct e.
    + case_bool_decide as Hshort; [|exact Hmore].
      rewrite Hlast; [now destruct e|].
      apply length_zero_iff_nil. subst got rest.
      rewrite length_take in Hshort. rewrite length_drop. lia.
Qed.

(** X7. When the transfer of a stored object breaks after [k] bytes,
    [Download] fails with [Internal] and returns nothing, while
    [DownloadStream] has by then sent the metadata frame and, in chunk
    frames, every byte read before the break, and fails with [Internal]
    too: a streamed download can end in an error after a prefix of the
    object went out. *)
Theorem Download_read_breaks (m : storage.MinioStorage) (p : string) (w : World)
    (content : list byte) (k : nat) (msg : string) :
  objects w !! (storage.bucketName m, p) = Some content ->
  get_fault (faults w) (storage.bucketName m) p = None ->
  stat_fault (faults w) (storage.bucketName m) p = None ->
  read_fault (faults w) (storage.bucketName m) p = Some (k, msg) ->
  handler.Download (serve m) p w
    = (Fail (mkStatus codes.Internal ("failed to read file content: " +:+ msg)), w) /\
  exists chunks,
    handler.DownloadStream (serve m) p (mkDownloadStreamServer [] None) w
    = ((mkDownloadStreamServer
          (Resp_Metadata (mkFileMetadata p 0 "") :: map Resp_Chunk chunks) None,
        Some (mkStatus codes.Internal ("failed to read file: " +:+ msg))), w) /\
    concat chunks = take k content.
Proof.
  intros Hobj Hget Hstat Hread.
  assert (Hdl : storage.Minio.Download m p w
                = (Ok (io.mkReader (take k content) (Err msg) (end_policy (faults w))), w)).
  { unfold storage.Minio.Download, bind, minio.GetObject. rewrite Hget.
    unfold minio.Stat, minio.reader_of; simpl.
    rewrite Hobj, Hstat; simpl. now rewrite Hread, Hobj. }
  split.
  - unfold handler.Download, bind, service.DownloadFile; simpl. now rewrite Hdl.
  - exists (pieces (length (take k content)) handler.bufferSize (take k content)). split.
    + unfold handler.DownloadStream, bind, service.DownloadFile; simpl. rewrite Hdl.
      unfold ret; simpl.
      now rewrite (stream_chunks_to_the_end (length (take k content))).
    + apply pieces_concat; [apply handler.bufferSize_pos|reflexivity].
Qed.

Lemma Download_read_breaks_witness :
  objects demo2.world_breaking !! ("media", "k") = Some demo.hello /\
  read_fault (faults demo2.world_breaking) "media" "k" = Some (3, "connection reset") /\
  handler.Download demo.h "k" demo2.world_breaking
    = (Fail (mkStatus codes.Internal "failed to read file content: connection reset"),
       demo2.world_breaking) /\
  exists chunks,
    handler.DownloadStream demo.h "k" (mkDownloadStreamServer [] None) demo2.world_breaking
    = ((mkDownloadStreamServer
          (Resp_Metadata (mkFileMetadata "k" 0 "") :: map Resp_Chunk chunks) None,
        Some (mkStatus codes.Internal "failed to read file: connection reset")),
       demo2.world_breaking) /\
    concat chunks = [x68; x65; x6c].
Proof.
  split; [reflexivity|]. split; [reflexivity|].
  apply (Download_read_breaks demo.store "k" demo2.world_breaking demo.hello 3
           "connection reset"); reflexivity.
Defined.

(** The chunk loop over a transport that takes [k] more frames: it sends
    the pieces while the transport takes them, and fails at the first one
    it does not take. *)
Lemma stream_chunks_budget (fuel n : nat) (Hn : 0 < n) (data : list byte)
    (policy : io.EndPolicy) (frames : list DownloadStreamResponse) (k : nat) :
  length data <= fuel ->
  handler.stream_chunks n Hn (io.mkReader data EOF policy)
                        (mkDownloadStreamServer frames (Some k))
  = if bool_decide (length (pieces fuel n data) <= k)
    then (mkDownloadStreamServer (frames ++ map Resp_Chunk (pieces fuel n data))
                                 (Some (k - length (pieces fuel n data))), None)
    else (mkDownloadStreamServer (frames ++ map Resp_Chunk (take k (pieces fuel n data)))
                                 (Some 0),
          Some (mkStatus codes.Internal "failed to send chunk: transport is closing")).
Proof.
  revert data frames k. induction fuel as [|fuel IH]; intros data frames k Hlen.
  - destruct data; [|simpl in Hlen; lia].
    rewrite stream_chunks_unfold. simpl. now rewrite app_nil_r, Nat.sub_0_r.
  - rewrite stream_chunks_unfold. destruct data as [|b data].
    { simpl. now rewrite app_nil_r, Nat.sub_0_r. }
    unfold io.Read. cbn [io.rd_data io.rd_end io.rd_policy].
    set (got := take n (b :: data)). set (rest := drop n (b :: data)).
    assert (Hgot : 0 < length got).
    { subst got. rewrite length_take. simpl. lia. }
    assert (Hrest : length rest <= fuel).
    { subst rest. rewrite length_drop. simpl in *. lia. }
    unfold handler.send_chunk. rewrite bool_decide_eq_true_2 by exact Hgot.
    unfold Send. cbn [send_budget sent].
    change (pieces (S fuel) n (b :: data)) with (got :: pieces fuel n rest).
    destruct k as [|k].
    { rewrite bool_decide_eq_false_2 by (simpl; lia). simpl. now rewrite app_nil_r. }
    assert (Hlast : rest = [] ->
              (mkDownloadStreamServer (frames ++ [Resp_Chunk got]) (Some k),
               @None Status)
              = if bool_decide (length (got :: pieces fuel n rest) <= S k)
                then (mkDownloadStreamServer
                        (frames ++ map Resp_Chunk (got :: pieces fuel n rest))
                        (Some (S k - length (got :: pieces fuel n rest))), None)
                else (mkDownloadStreamServer
                        (frames ++ map Resp_Chunk (take (S k) (got :: pieces fuel n rest)))
                        (Some 0),
                      Some (mkStatus codes.Internal
                              "failed to send chunk: transport is closing"))).
    { intros ->. rewrite pieces_nil. cbn [length map].
      rewrite bool_decide_eq_true_2 by lia.
      now replace (S k - 1) with k by lia. }
    assert (Hmore :
              handler.stream_chunks n Hn (io.mkReader rest EOF policy)
                (mkDownloadStreamServer (frames ++ [Resp_Chunk got]) (Some k))
              = if bool_decide (length (got :: pieces fuel n rest) <= S k)
                then (mkDownloadStreamServer
                        (frames ++ map Resp_Chunk (got :: pieces fuel n rest))
                        (Some (S k - length (got :: pieces fuel n rest))), None)
                else (mkDownloadStreamServer
                        (frames ++ map Resp_Chunk (take (S k) (got :: pieces fuel n rest)))
                        (Some 0),
                      Some (mkStatus codes.Internal
                              "failed to send chunk: transport is closing"))).
    { rewrite IH by exact Hrest. cbn [length take map].
      destruct (decide (length (pieces fuel n rest) <= k)) as [Hle|Hgt].
      - rewrite !bool_decide_eq_true_2 by lia. rewrite <- app_assoc.
        now replace (S k - S (length (pieces fuel n rest)))
          with (k - length (pieces fuel n rest)) by lia.
      - rewrite !bool_decide_eq_false_2 by lia. now rewrite <- app_assoc. }
    destruct policy.
    + exact Hmore.
    + destruct (decide (rest = [])) as [Hend|Hend].
      * rewrite (bool_decide_eq_true_2 (rest = [])) by exact Hend. exact (Hlast Hend).
      * rewrite (bool_decide_eq_false_2 (rest = [])) by exact Hend. exact Hmore.
    + destruct (decide (length got < n)) as [Hshort|Hfull].
      * rewrite (bool_decide_eq_true_2 (length got < n)) by exact Hshort.
        apply Hlast. apply length_zero_iff_nil. subst got rest.
        rewrite length_take in Hshort. rewrite length_drop. lia.
      * rewrite (bool_decide_eq_false_2 (length got < n)) by exact Hfull. exact Hmore.
Qed.

(** X8. When the transport stops taking frames after [k] of them, with [k]
    at most the number of chunks of the object, [DownloadStream] fails with
    [Internal] and what went out is exactly the first [k] frames of the
    full answer (the metadata frame, then the chunks in order): frames are
    never skipped or reordered, and nothing is sent after the failure. *)
Theorem DownloadStream_transport_breaks (m : storage.MinioStorage) (p : string)
    (w : World) (content : list byte) (k : nat) :
  objects w !! (storage.bucketName m, p) = Some content ->
  get_fault (faults w) (storage.bucketName m) p = None ->
  stat_fault (faults w) (storage.bucketName m) p = None ->
  read_fault (faults w) (storage.bucketName m) p = None ->
  (Z.of_nat k <= (Z.of_nat (length content) + 32767) `div` 32768)%Z ->
  exists chunks msg,
    concat chunks = content /\
    handler.DownloadStream (serve m) p (mkDownloadStreamServer [] (Some k)) w
    = ((mkDownloadStreamServer
          (take k (Resp_Metadata (mkFileMetadata p 0 "") :: map Resp_Chunk chunks))
          (Some 0),
        Some (mkStatus codes.Internal msg)), w).
Proof.
  intros Hobj Hget Hstat Hread Hk.
  set (chunks := pieces (length content) handler.bufferSize content).
  rewrite <- pieces_count_Z in Hk. fold chunks in Hk.
  assert (Hcat : concat chunks = content).
  { apply pieces_concat; [apply handler.bufferSize_pos|reflexivity]. }
  exists chunks. destruct k as [|k].
  - eexists. split; [exact Hcat|].
    unfold handler.DownloadStream, bind, service.DownloadFile; simpl.
    rewrite (Minio_Download_present m p w content Hobj Hget Hstat Hread).
    reflexivity.
  - eexists. split; [exact Hcat|].
    unfold handler.DownloadStream, bind, service.DownloadFile; simpl.
    rewrite (Minio_Download_present m p w content Hobj Hget Hstat Hread).
    unfold ret; simpl.
    rewrite (stream_chunks_budget (length content)) by reflexivity. fold chunks.
    rewrite bool_decide_eq_false_2 by lia.
    change (map Resp_Chunk (take k chunks)) with (Resp_Chunk <$> take k chunks).
    rewrite <- fmap_take. reflexivity.
Qed.

Lemma DownloadStream_transport_breaks_witness :
  objects demo2.world_stored !! ("media", "k") = Some demo.hello /\
  (Z.of_nat 1 <= (Z.of_nat (length demo.hello) + 32767) `div` 32768)%Z /\
  exists chunks msg,
    concat chunks = demo.hello /\
    handler.DownloadStream demo.h "k" (mkDownloadStreamServer [] (Some 1)) demo2.world_stored
    = ((mkDownloadStreamServer
          (take 1 (Resp_Metadata (mkFileMetadata "k" 0 "") :: map Resp_Chunk chunks))
          (Some 0),
        Some (mkStatus codes.Internal msg)), demo2.world_stored).
Proof.
  split; [reflexivity|]. split; [vm_compute; discriminate|].
  apply (DownloadStream_transport_breaks demo.store "k" demo2.world_stored demo.hello 1);
    [reflexivity|reflexivity|reflexivity|reflexivity|vm_compute; discriminate].
Defined.

(** ** Delete *)

(** X9. After a [Delete] that the store carries out, the object is gone
    and nothing else has changed: [Delete] answers success, the objects
    under every other key are as before, and [Download] and
    [DownloadStream] of the deleted path fail with [NotFound], the latter
    without sending a frame. *)
Theorem Delete_then_Download (m : storage.MinioStorage) (p : string)
    (stream : DownloadStreamServer) (w : World) :
  remove_fault (faults w) (storage.bucketName m) p = None ->
  exists w1 msg,
    handler.Delete (serve m) p w
      = (Ok (mkDeleteResponse true "File deleted successfully"), w1) /\
    objects w1 = delete (storage.bucketName m, p) (objects w) /\
    handler.Download (serve m) p w1 = (Fail (mkStatus codes.NotFound msg), w1) /\
    handler.DownloadStream (serve m) p stream w1
      = ((stream, Some (mkStatus codes.NotFound msg)), w1).
Proof.
  intros Hrm.
  unfold handler.Delete, bind, service.DeleteFile; simpl.
  unfold storage.Minio.Delete, bind, minio.RemoveObject. rewrite Hrm. simpl.
  set (w1 := mkWorld _ _ _ _ _ _ _).
  destruct (Minio_Download_absent m p w1) as [e He].
  { apply lookup_delete_eq. }
  exists w1, ("file not found: " +:+ Error e). split; [reflexivity|]. split; [reflexivity|].
  unfold handler.Download, handler.DownloadStream, bind, service.DownloadFile; simpl.
  rewrite He. split; reflexivity.
Qed.

Lemma Delete_then_Download_witness :
  remove_fault (faults demo2.world_stored) "media" "k" = None /\
  exists w1 msg,
    handler.Delete demo.h "k" demo2.world_stored
      = (Ok (mkDeleteResponse true "File deleted successfully"), w1) /\
    objects w1 = delete ("media", "k") (objects demo2.world_stored) /\
    handler.Download demo.h "k" w1 = (Fail (mkStatus codes.NotFound msg), w1) /\
    handler.DownloadStream demo.h "k" demo.fresh_stream w1
      = ((demo.fresh_stream, Some (mkStatus codes.NotFound msg)), w1).
Proof.
  split; [reflexivity|].
  apply (Delete_then_Download demo.store "k" demo.fresh_stream demo2.world_stored).
  reflexivity.
Defined.

(** X10. When the store refuses to remove an object, [Delete] fails with
    [Internal], the message carrying the error of the store, and the world
    is unchanged: the object can still be downloaded. *)
Theorem Delete_failure (m : storage.MinioStorage) (p : string) (w : World) (msg : string) :
  remove_fault (faults w) (storage.bucketName m) p = Some msg ->
  handler.Delete (serve m) p w
  = (Fail (mkStatus codes.Internal
             ("failed to delete file: failed to delete file: " +:+ msg)), w).
Proof.
  intros Hrm.
  unfold handler.Delete, bind, service.DeleteFile; simpl.
  unfold storage.Minio.Delete, bind, minio.RemoveObject. now rewrite Hrm.
Qed.

Lemma Delete_failure_witness :
  remove_fault (faults demo2.world_locked) "media" "k" = Some "Access Denied." /\
  handler.Delete demo.h "k" demo2.world_locked
  = (Fail (mkStatus codes.Internal
             "failed to delete file: failed to delete file: Access Denied."),
     demo2.world_locked).
Proof.
  split; [reflexivity|].
  apply (Delete_failure demo.store "k" demo2.world_locked "Access Denied.").
  reflexivity.
Defined.

(** ** Streaming both ways *)

(** X11. What a streamed upload stores, a streamed download sends back:
    when the store accepts the write and opens and reads the object
    without fault, [DownloadStream] of the path answered by
    [UploadStream] sends the metadata frame and chunk frames whose
    payloads, concatenated, are the concatenation of the payloads
    uploaded. *)
Theorem UploadStream_then_DownloadStream (m : storage.MinioStorage) (md : FileMetadata)
    (cs : list (list byte)) (w : World) :
  let key := next_key (FileName md) w in
  put_fault (faults w)
    (mkPutCall (storage.bucketName m) key (concat cs) EOF
               (FileSize md) (ContentType md)) = None ->
  get_fault (faults w) (storage.bucketName m) key = None ->
  stat_fault (faults w) (storage.bucketName m) key = None ->
  read_fault (faults w) (storage.bucketName m) key = None ->
  exists resp w1 chunks,
    handler.UploadStream (serve m) (chunked_upload md cs None) w = (Ok resp, w1) /\
    handler.DownloadStream (serve m) (FilePath resp) (mkDownloadStreamServer [] None) w1
    = ((mkDownloadStreamServer
          (Resp_Metadata (mkFileMetadata (FilePath resp) 0 "") :: map Resp_Chunk chunks)
          None, None), w1) /\
    concat chunks = concat cs.
Proof.
  intros key Hput Hget Hstat Hread.
  rewrite UploadStream_chunked_run. fold key. rewrite Hput.
  do 2 eexists. exists (pieces (length (concat cs)) handler.bufferSize (concat cs)).
  split; [reflexivity|]. split.
  - cbn [FilePath]. apply DownloadStream_pieces; simpl;
      [apply lookup_insert_eq|exact Hget|exact Hstat|exact Hread].
  - apply pieces_concat; [apply handler.bufferSize_pos|reflexivity].
Qed.

Lemma UploadStream_then_DownloadStream_witness :
  put_fault (faults demo.world0)
    (mkPutCall "media" demo.key0 demo.hello EOF 5 "text/plain") = None /\
  exists resp w1 chunks,
    handler.UploadStream demo.h
      (chunked_upload demo.meta [[x68; x65]; [x6c; x6c; x6f]] None) demo.world0
      = (Ok resp, w1) /\
    handler.DownloadStream demo.h (FilePath resp) (mkDownloadStreamServer [] None) w1
    = ((mkDownloadStreamServer
          (Resp_Metadata (mkFileMetadata (FilePath resp) 0 "") :: map Resp_Chunk chunks)
          None, None), w1) /\
    concat chunks = demo.hello.
Proof.
  split; [reflexivity|].
  apply (UploadStream_then_DownloadStream demo.store demo.meta
           [[x68; x65]; [x6c; x6c; x6f]] demo.world0); reflexivity.
Defined.

(** ** Keys and URLs *)

Lemma no_separator_app (a b : string) :
  no_separator a -> no_separator b -> no_separator (a +:+ b).
Proof.
  unfold no_separator. intros Ha Hb.
  now rewrite gostring_to_list_app, existsb_app, Ha, Hb.
Qed.

(** An extension is empty, or a dot followed by neither dot nor
    separator. *)
Lemma Ext_loop_shape (rpath tail : list ascii) :
  no_dot (GoString.of_list tail) -> no_separator (GoString.of_list tail) ->
  filepath.Ext_loop rpath tail = [] \/
  exists t, filepath.Ext_loop rpath tail = "."%char :: t /\
            no_dot (GoString.of_list t) /\ no_separator (GoString.of_list t).
Proof.
  revert tail. induction rpath as [|c rpath IH]; intros tail Hdot Hsep; simpl.
  - now left.
  - destruct (filepath.IsPathSeparator c) eqn:Hc; [now left|].
    destruct (Ascii.eqb c ".") eqn:Hd.
    + apply Ascii.eqb_eq in Hd as ->. right. now exists tail.
    + apply IH.
      * unfold no_dot in *. simpl. rewrite gostring_to_of_list in *.
        simpl. now rewrite Hd, Hdot.
      * unfold no_separator in *. simpl. rewrite gostring_to_of_list in *.
        simpl. now rewrite Hc, Hsep.
Qed.

Lemma hex_digit_plain_high (b : byte) :
  Ascii.eqb (uuid.hex_digit (N.shiftr (Byte.to_N b) 4)) "." = false /\
  filepath.IsPathSeparator (uuid.hex_digit (N.shiftr (Byte.to_N b) 4)) = false.
Proof. destruct b; split; reflexivity. Qed.

Lemma hex_digit_plain_low (b : byte) :
  Ascii.eqb (uuid.hex_digit (N.land (Byte.to_N b) 15)) "." = false /\
  filepath.IsPathSeparator (uuid.hex_digit (N.land (Byte.to_N b) 15)) = false.
Proof. destruct b; split; reflexivity. Qed.

(** The canonical form of an identifier has neither dot nor separator. *)
Lemma uuid_String_plain (u : uuid.UUID) :
  no_dot (uuid.String u) /\ no_separator (uuid.String u).
Proof.
  unfold uuid.UUID in u. inv_vec u; intros.
  unfold no_dot, no_separator, uuid.String. rewrite gostring_to_of_list.
  unfold uuid.encodeHex, uuid.slice, uuid.hex_Encode.
  cbn [vec_to_list take drop flat_map app Nat.sub].
  repeat match goal with
         | |- context [uuid.hex_digit (N.shiftr (Byte.to_N ?b) 4)] =>
             generalize (hex_digit_plain_high b);
             generalize (uuid.hex_digit (N.shiftr (Byte.to_N b) 4)); intros ? [? ?]
         | |- context [uuid.hex_digit (N.land (Byte.to_N ?b) 15)] =>
             generalize (hex_digit_plain_low b);
             generalize (uuid.hex_digit (N.land (Byte.to_N b) 15)); intros ? [? ?]
         end.
  cbn [existsb].
  repeat match goal with
         | H : Ascii.eqb _ "." = false |- _ => rewrite H; clear H
         | H : filepath.IsPathSeparator _ = false |- _ => rewrite H; clear H
         end.
  split; reflexivity.
Qed.

(** X12. The generated key keeps the extension where [filepath.Ext] finds
    it again: the final path element of the key is the identifier followed
    by the extension of the file name, so the extension of the key is the
    extension of the file name, whatever the name, the date and the
    identifier. *)
Theorem key_keeps_extension (f : string) (w : World) :
  last_element (next_key f w)
    = uuid.String (uuid_source w (uuid_drawn w)) +:+ filepath.Ext f /\
  filepath.Ext (next_key f w) = filepath.Ext f.
Proof.
  set (id := uuid.String (uuid_source w (uuid_drawn w))).
  destruct (uuid_String_plain (uuid_source w (uuid_drawn w))) as [Hdot Hsep].
  fold id in Hdot, Hsep.
  assert (Hshape : filepath.Ext f = "" \/
                   exists t, filepath.Ext f = String "." t /\ no_dot t /\ no_separator t).
  { unfold filepath.Ext.
    destruct (Ext_loop_shape (rev (GoString.to_list f)) []) as [->|(t & -> & Ht1 & Ht2)];
      [reflexivity|reflexivity|now left|].
    right. exists (GoString.of_list t). now repeat split. }
  assert (Hext : no_separator (filepath.Ext f)).
  { destruct Hshape as [->|(t & -> & _ & Ht)]; [reflexivity|].
    unfold no_separator in *. simpl. exact Ht. }
  assert (Hlast : last_element (next_key f w) = id +:+ filepath.Ext f).
  { unfold next_key. fold id.
    rewrite <- (gostring_app_assoc _ "/").
    rewrite last_element_app by now apply no_separator_app.
    now rewrite last_element_separator. }
  split; [exact Hlast|].
  rewrite Ext_spec, Hlast.
  destruct Hshape as [->|(t & -> & Ht & _)].
  - rewrite gostring_app_nil_r. now apply from_last_dot_none.
  - now apply from_last_dot_app.
Qed.

Lemma string_app_inv_head (s a b : string) : s +:+ a = s +:+ b -> a = b.
Proof.
  induction s as [|c s IH]; [trivial|].
  rewrite !gostring_app_cons. intros [= H]. now apply IH.
Qed.

(** X13. With a base URL configured, different keys have different URLs:
    the URL of an object determines its key. *)
Theorem GetURL_distinct (m : storage.MinioStorage) (k1 k2 : string) :
  storage.fileURL m <> "" ->
  k1 <> k2 ->
  storage.Minio.GetURL m k1 <> storage.Minio.GetURL m k2.
Proof.
  intros Hbase Hne Heq. apply Hne.
  unfold storage.Minio.GetURL in Heq.
  rewrite bool_decide_eq_false_2 in Heq by exact Hbase.
  apply string_app_inv_head in Heq. apply (string_app_inv_head "/") in Heq.
  apply string_app_inv_head in Heq. now apply (string_app_inv_head "/") in Heq.
Qed.

Lemma GetURL_distinct_witness :
  storage.fileURL demo.store <> "" /\
  "a.txt" <> "b.txt" /\
  storage.Minio.GetURL demo.store "a.txt" <> storage.Minio.GetURL demo.store "b.txt".
Proof.
  split; [discriminate|]. split; [discriminate|].
  apply (GetURL_distinct demo.store "a.txt" "b.txt"); discriminate.
Defined.

(** ** The start of the storage adapter *)

(** What a run of [ensureBucket] does, request by request. *)
Lemma ensureBucket_run (m : storage.MinioStorage) (s : startup.Server) :
  let b := storage.bucketName m in
  let asked n made :=
    startup.mkServer (startup.buckets s) (startup.new_fault s) (startup.exists_fault s)
                     (startup.make_fault s) (n + startup.requests s) made in
  startup.ensureBucket m s
  = match startup.exists_fault s (startup.requests s) b with
    | Some msg =>
        (Some (Err ("failed to check bucket existence: " +:+ msg)), asked 1 (startup.made s))
    | None =>
        if bool_decide (b ∈ startup.buckets s) then (None, asked 1 (startup.made s))
        else
          match startup.make_fault s (S (startup.requests s)) b with
          | Some msg =>
              (Some (Err ("failed to create bucket: " +:+ msg)),
               asked 2 (startup.made s ++ [b]))
          | None =>
              (None,
               startup.mkServer ({[b]} ∪ startup.buckets s) (startup.new_fault s)
                 (startup.exists_fault s) (startup.make_fault s)
                 (2 + startup.requests s) (startup.made s ++ [b]))
          end
    end.
Proof.
  intros b asked. unfold startup.ensureBucket, startup.BucketExists. fold b.
  destruct (startup.exists_fault s (startup.requests s) b) as [msg|]; [reflexivity|].
  case_bool_decide as Hin; simpl; [reflexivity|].
  unfold startup.MakeBucket; simpl.
  destruct (startup.make_fault s (S (startup.requests s)) b) as [msg|]; [reflexivity|].
  now rewrite bool_decide_eq_false_2.
Qed.

(** X14. When [ensureBucket] returns without error the bucket of the
    adapter exists, every bucket that existed still does and no other was
    made; and [MakeBucket] was requested once if the bucket was missing,
    not at all if it was there. *)
Theorem ensureBucket_ensures (m : storage.MinioStorage) (s s' : startup.Server) :
  startup.ensureBucket m s = (None, s') ->
  storage.bucketName m ∈ startup.buckets s' /\
  startup.buckets s' = {[storage.bucketName m]} ∪ startup.buckets s /\
  startup.made s'
  = if bool_decide (storage.bucketName m ∈ startup.buckets s) then startup.made s
    else startup.made s ++ [storage.bucketName m].
Proof.
  rewrite ensureBucket_run.
  destruct (startup.exists_fault s _ _) as [msg|]; [discriminate|].
  case_bool_decide as Hin.
  - intros H. apply (f_equal snd) in H. simpl in H. subst s'. simpl.
    split; [exact Hin|]. split; [|reflexivity].
    apply set_eq. intros x. rewrite elem_of_union, elem_of_singleton.
    split; [tauto|]. intros [->|Hx]; assumption.
  - destruct (startup.make_fault s _ _) as [msg|]; [discriminate|].
    intros H. apply (f_equal snd) in H. simpl in H. subst s'.
    simpl. split; [set_solver|]. split; reflexivity.
Qed.

Lemma ensureBucket_ensures_witness :
  let m := storage.mkMinioStorage "media" "" in
  let s' := startup.mkServer ({[ "media" ]} ∪ ∅) (fun _ _ => None) (fun _ _ => None)
                             (fun _ _ => None) 2 ["media"] in
  startup.ensureBucket m demo2.server0 = (None, s') /\
  storage.bucketName m ∈ startup.buckets s' /\
  startup.buckets s' = {[storage.bucketName m]} ∪ startup.buckets demo2.server0 /\
  startup.made s'
  = if bool_decide (storage.bucketName m ∈ startup.buckets demo2.server0)
    then startup.made demo2.server0
    else startup.made demo2.server0 ++ [storage.bucketName m].
Proof.
  intros m s'.
  assert (Hrun : startup.ensureBucket m demo2.server0 = (None, s')).
  { rewrite ensureBucket_run. simpl.
    rewrite !bool_decide_eq_false_2 by set_solver. reflexivity. }
  split; [exact Hrun|].
  exact (ensureBucket_ensures m demo2.server0 s' Hrun).
Defined.

(** X15. Run again on the server a run without error has left,
    [ensureBucket] asks once whether the bucket exists and nothing else:
    it returns without error if that request goes through and with the
    error of that request, under its prefix, if it does not (a request
    that went through once may fail the next time); in either case no
    bucket is made, and none is asked for. *)
Theorem ensureBucket_again (m : storage.MinioStorage) (s s' : startup.Server) :
  startup.ensureBucket m s = (None, s') ->
  let again := startup.ensureBucket m s' in
  again.1
  = match startup.exists_fault s' (startup.requests s') (storage.bucketName m) with
    | Some msg => Some (Err ("failed to check bucket existence: " +:+ msg))
    | None => None
    end /\
  startup.buckets again.2 = startup.buckets s' /\
  startup.made again.2 = startup.made s' /\
  startup.requests again.2 = S (startup.requests s').
Proof.
  intros Hfirst again.
  assert (Hin : storage.bucketName m ∈ startup.buckets s').
  { revert Hfirst. rewrite ensureBucket_run.
    destruct (startup.exists_fault s _ _) as [msg|]; [discriminate|].
    case_bool_decide as Hin.
    - intros H. apply (f_equal snd) in H. simpl in H. now subst s'.
    - destruct (startup.make_fault s _ _) as [msg|]; [discriminate|].
      intros H. apply (f_equal snd) in H. simpl in H. subst s'. simpl. set_solver. }
  subst again. rewrite ensureBucket_run.
  destruct (startup.exists_fault s' _ _) as [msg|]; [now repeat split|].
  rewrite bool_decide_eq_true_2 by exact Hin. now repeat split.
Qed.

Lemma ensureBucket_again_witness :
  let m := storage.mkMinioStorage "media" "" in
  let s' := startup.mkServer ({[ "media" ]} ∪ ∅) (startup.new_fault demo2.server_flaky)
              (startup.exists_fault demo2.server_flaky)
              (startup.make_fault demo2.server_flaky) 2 ["media"] in
  startup.ensureBucket m demo2.server_flaky = (None, s') /\
  (startup.ensureBucket m s').1
    = Some (Err "failed to check bucket existence: connection refused") /\
  startup.buckets (startup.ensureBucket m s').2 = startup.buckets s' /\
  startup.made (startup.ensureBucket m s').2 = startup.made s' /\
  startup.requests (startup.ensureBucket m s').2 = S (startup.requests s').
Proof.
  intros m s'.
  assert (Hrun : startup.ensureBucket m demo2.server_flaky = (None, s')).
  { rewrite ensureBucket_run. simpl.
    rewrite !bool_decide_eq_false_2 by set_solver. reflexivity. }
  split; [exact Hrun|].
  exact (ensureBucket_again m demo2.server_flaky s' Hrun).
Defined.

(** X16. When [NewMinioStorage] succeeds, the adapter it returns is bound
    to the bucket and the base URL of the configuration, and that bucket
    exists on the server; no bucket that existed was removed. *)
Theorem NewMinioStorage_ready (cfg : config.Config) (s s' : startup.Server)
    (st : storage.MinioStorage) :
  startup.NewMinioStorage cfg s = (Ok st, s') ->
  st = storage.mkMinioStorage (config.MinioBucketName cfg) (config.MinioFileUrl cfg) /\
  storage.bucketName st ∈ startup.buckets s' /\
  startup.buckets s ⊆ startup.buckets s'.
Proof.
  unfold startup.NewMinioStorage, startup.New.
  destruct (startup.new_fault s _ _) as [msg|]; [discriminate|].
  rewrite ensureBucket_run. simpl.
  destruct (startup.exists_fault s _ _) as [msg|]; [discriminate|].
  case_bool_decide as Hin.
  - intros [= <- <-]. simpl. split; [reflexivity|]. split; [exact Hin|set_solver].
  - destruct (startup.make_fault s _ _) as [msg|]; [discriminate|].
    intros [= <- <-]. simpl. split; [reflexivity|]. split; set_solver.
Qed.

Lemma NewMinioStorage_ready_witness :
  let s' := startup.mkServer ({[ "media" ]} ∪ ∅) (fun _ _ => None) (fun _ _ => None)
                             (fun _ _ => None) 2 ["media"] in
  startup.NewMinioStorage demo2.cfg demo2.server0 = (Ok demo.store, s') /\
  demo.store = storage.mkMinioStorage (config.MinioBucketName demo2.cfg)
                                      (config.MinioFileUrl demo2.cfg) /\
  storage.bucketName demo.store ∈ startup.buckets s' /\
  startup.buckets demo2.server0 ⊆ startup.buckets s'.
Proof.
  intros s'.
  assert (Hrun : startup.NewMinioStorage demo2.cfg demo2.server0 = (Ok demo.store, s')).
  { unfold startup.NewMinioStorage, startup.New. simpl.
    rewrite ensureBucket_run. simpl.
    rewrite !bool_decide_eq_false_2 by set_solver. reflexivity. }
  split; [exact Hrun|].
  exact (NewMinioStorage_ready demo2.cfg demo2.server0 s' demo.store Hrun).
Defined.

(** X17. [NewMinioStorage] fails without a word to the server when the
    client cannot be made, and fails without making a bucket when the
    server says the bucket exists: the only request that changes the
    server is the [MakeBucket] of a bucket reported missing.  In every
    case the buckets that existed before exist after. *)
Theorem NewMinioStorage_frugal (cfg : config.Config) (s : startup.Server) :
  let run := startup.NewMinioStorage cfg s in
  startup.buckets s ⊆ startup.buckets run.2 /\
  startup.buckets run.2 ⊆ {[config.MinioBucketName cfg]} ∪ startup.buckets s /\
  (startup.made run.2 = startup.made s \/
   (startup.made run.2 = startup.made s ++ [config.MinioBucketName cfg] /\
    (config.MinioBucketName cfg ∉ startup.buckets s) /\
    startup.new_fault s (config.MinioEndpoint cfg) (config.MinioUseSSL cfg) = None)).
Proof.
  intros run. subst run.
  unfold startup.NewMinioStorage, startup.New.
  destruct (startup.new_fault s _ _) as [msg|]; simpl.
  { split; [set_solver|]. split; [set_solver|now left]. }
  rewrite ensureBucket_run. simpl.
  destruct (startup.exists_fault s _ _) as [msg|]; simpl.
  { split; [set_solver|]. split; [set_solver|now left]. }
  case_bool_decide as Hin; simpl.
  { split; [set_solver|]. split; [set_solver|now left]. }
  destruct (startup.make_fault s _ _) as [msg|]; simpl.
  - split; [set_solver|]. split; [set_solver|]. right. now repeat split.
  - split; [set_solver|]. split; [set_solver|]. right. now repeat split.
Qed.
